(** * Meeting bot: transcript reconciliation, session analytics, recognition
      client and host shell

    A shallow embedding of

    - [src/lib/analytics.ts]      (class [AnalyticsService]),
    - [src/app/page.tsx]          ([handleTranscriptUpdate], [checkForBotMention]),
    - [src/lib/transcription.ts]  (class [TranscriptionService]),
    - the Electron main process   (class [ElectronApp]),

    followed by the properties established about them.

    Conventions.
    - A JavaScript [number] holding a time in milliseconds, a count or a
      speaker index is a [Z]; a score or a confidence is a [Q].
    - A JavaScript string is carried as the bytes of its UTF-8 encoding in a
      Rocq [string].
    - [Date.now()] is an explicit argument [now] of every operation that
      reads the clock.
    - Object state is passed explicitly: a method [m(args)] of a service
      becomes [m args s] returning the next state. *)

From stdpp Require Import base list strings pretty gmap.
From Stdlib Require Import Ascii ZArith QArith Lia.

Local Open Scope string_scope.
Local Open Scope list_scope.
Local Open Scope Z_scope.

(* ===================================================================== *)
(** * JavaScript runtime helpers *)
(* ===================================================================== *)

Module Js.

(** Truthiness of the values the sources test with [!x] or [x || y]. *)
Definition truthy_string (s : string) : bool :=
  match s with EmptyString => false | _ => true end.

Definition truthy_number (n : Z) : bool := negb (n =? 0)%Z.

Definition truthy_nullable_number (n : option Z) : bool :=
  match n with None => false | Some v => truthy_number v end.

(** [`${n}`] for an integer [n]. *)
Definition number_toString (n : Z) : string := pretty n.

(** ** [Map<string, V>]: insertion-ordered, one binding per key.
    [Array.from(m.values())] lists the values in insertion order, which
    [endSession] and the exports observe, so the map is an association
    list kept in that order. *)
Section Map.
Context {V : Type}.

Fixpoint Map_get (k : string) (m : list (string * V)) : option V :=
  match m with
  | [] => None
  | (k', v) :: m' => if decide (k' = k) then Some v else Map_get k m'
  end.

Definition Map_has (k : string) (m : list (string * V)) : bool :=
  match Map_get k m with Some _ => true | None => false end.

(** [m.set(k, v)]: overwrite in place, or append a new binding. *)
Fixpoint Map_set (k : string) (v : V) (m : list (string * V))
  : list (string * V) :=
  match m with
  | [] => [(k, v)]
  | (k', v') :: m' =>
      if decide (k' = k) then (k, v) :: m'
      else (k', v') :: Map_set k v m'
  end.

Definition Map_keys (m : list (string * V)) : list string := m.*1.
Definition Map_values (m : list (string * V)) : list V := m.*2.
End Map.

(** ** Strings *)

Definition code (c : ascii) : nat := Ascii.nat_of_ascii c.

(** Number of bytes of the white-space character (the class [\s] of
    regular expressions, which is also what [trim] strips) that starts
    [s], and [0] when [s] does not start with one:
    U+0009..U+000D, U+0020, U+00A0, U+1680, U+2000..U+200A, U+2028,
    U+2029, U+202F, U+205F, U+3000, U+FEFF. *)
Definition wsLen (s : string) : nat :=
  match s with
  | EmptyString => 0
  | String c r =>
      let n := code c in
      if ((9 <=? n) && (n <=? 13))%nat || (n =? 32)%nat then 1%nat
      else
        match r with
        | String c1 r1 =>
            let n1 := code c1 in
            if ((n =? 194) && (n1 =? 160))%nat then 2%nat
            else
              match r1 with
              | String c2 _ =>
                  let n2 := code c2 in
                  if ((n =? 225) && (n1 =? 154) && (n2 =? 128))%nat
                  then 3%nat
                  else if ((n =? 226) && (n1 =? 128)
                           && (((128 <=? n2) && (n2 <=? 138))
                               || (n2 =? 168) || (n2 =? 169)
                               || (n2 =? 175)))%nat
                  then 3%nat
                  else if ((n =? 226) && (n1 =? 129) && (n2 =? 159))%nat
                  then 3%nat
                  else if ((n =? 227) && (n1 =? 128) && (n2 =? 128))%nat
                  then 3%nat
                  else if ((n =? 239) && (n1 =? 187) && (n2 =? 191))%nat
                  then 3%nat
                  else 0%nat
              | EmptyString => 0%nat
              end
        | EmptyString => 0%nat
        end
  end.

(** [s.split(/\s+/)].  [skip] counts the bytes still to drop of the
    white-space character being read, [inWs] tells whether a separator
    run is open and [cur] is the token read so far.  A separator at
    either end of [s] leaves an empty token there, and the empty string
    splits into one empty token. *)
Fixpoint split_ws_from (s : string) (skip : nat) (inWs : bool)
    (cur : string) : list string :=
  match s with
  | EmptyString => [cur]
  | String c s' =>
      match skip with
      | S k => split_ws_from s' k inWs cur
      | O =>
          match wsLen s with
          | O => split_ws_from s' 0 false (cur +:+ String c EmptyString)
          | S k =>
              if inWs then split_ws_from s' k true cur
              else cur :: split_ws_from s' k true EmptyString
          end
      end
  end.

Definition split_ws (s : string) : list string :=
  split_ws_from s 0 false EmptyString.

(** [s.split(sep)] for a one-character separator: every occurrence
    separates, so adjacent separators give empty tokens. *)
Fixpoint split_char_from (sep : ascii) (s : string) (cur : string)
  : list string :=
  match s with
  | EmptyString => [cur]
  | String c s' =>
      if decide (c = sep) then cur :: split_char_from sep s' EmptyString
      else split_char_from sep s' (cur +:+ String c EmptyString)
  end.

Definition split_char (sep : ascii) (s : string) : list string :=
  split_char_from sep s EmptyString.

(** [s.trim()]. *)
Fixpoint trimStart_from (s : string) (skip : nat) : string :=
  match s with
  | EmptyString => EmptyString
  | String c s' =>
      match skip with
      | S k => trimStart_from s' k
      | O =>
          match wsLen s with
          | O => s
          | S k => trimStart_from s' k
          end
      end
  end.

Fixpoint trimEnd_from (s : string) (skip : nat) (pending : string)
  : string :=
  match s with
  | EmptyString => EmptyString
  | String c s' =>
      match skip with
      | S k => trimEnd_from s' k (pending +:+ String c EmptyString)
      | O =>
          match wsLen s with
          | O => pending +:+ String c (trimEnd_from s' 0 EmptyString)
          | S k => trimEnd_from s' k (pending +:+ String c EmptyString)
          end
      end
  end.

Definition trim (s : string) : string :=
  trimEnd_from (trimStart_from s 0) 0 EmptyString.

(** [hay.includes(needle)]. *)
Fixpoint includes (needle hay : string) : bool :=
  String.prefix needle hay
  || match hay with
     | EmptyString => false
     | String _ hay' => includes needle hay'
     end.

(** [s.toLowerCase()] on the letters A..Z; other bytes are kept.  (The
    word lists and trigger phrases compared against are ASCII.) *)
Definition lower_ascii (c : ascii) : ascii :=
  let n := code c in
  if ((65 <=? n) && (n <=? 90))%nat then Ascii.ascii_of_nat (n + 32) else c.

Fixpoint toLowerCase (s : string) : string :=
  match s with
  | EmptyString => EmptyString
  | String c s' => String (lower_ascii c) (toLowerCase s')
  end.

(** [xs.join(sep)]. *)
Fixpoint join (sep : string) (xs : list string) : string :=
  match xs with
  | [] => EmptyString
  | [x] => x
  | x :: xs' => x +:+ sep +:+ join sep xs'
  end.

(** [Math.max(a, b)] on rationals. *)
Definition Qmax (a b : Q) : Q := if Qle_bool a b then b else a.

End Js.

(* ===================================================================== *)
(** * Data model ([src/lib/types.d.ts]) *)
(* ===================================================================== *)

Record WordSegment := {
  word : string;
  word_startTime : Z;
  word_endTime : Z;
  word_confidence : Q;
  word_speaker : option Z
}.

Record TranscriptSegment := {
  speaker : string;
  speakerIndex : Z;
  text : string;
  startTime : Z;
  endTime : Z;
  confidence : Q;
  words : option (list WordSegment)
}.

Inductive Overall := positive | neutral | negative.

Record Emotions := { joy : Q; sadness : Q; anger : Q; fear : Q }.

Record SentimentScore := {
  overall : Overall;
  score : Q;
  emotions : Emotions
}.

Record ParticipantData := {
  userId : string;
  userName : string;
  joinTimestamp : Z;
  leaveTimestamp : option Z;
  transcript : list TranscriptSegment;
  totalTimeAttended : Z;
  totalTimeSpoken : Z;
  sentiment : SentimentScore
}.

(** [session_participants] is an array of references to participant
    objects.  The objects live in the service's [participants] map, where
    an object is never replaced under its key, so a reference is the key
    and reading through it is a lookup in the map: an update of a
    participant is seen through the session's array as in the source. *)
Record MeetingSession := {
  id : string;
  url : string;
  session_startTime : Z;
  session_endTime : option Z;
  session_participants : list string;
  totalTranscript : list TranscriptSegment
}.

(** Result of a call that may [throw new Error(message)]. *)
Inductive Result (A : Type) :=
| Return (a : A)
| Throw (message : string).
Arguments Return {A} a.
Arguments Throw {A} message.

(** [segment.endTime - segment.startTime] *)
Definition duration (seg : TranscriptSegment) : Z := endTime seg - startTime seg.

Definition durationSum (l : list TranscriptSegment) : Z :=
  foldr (fun seg acc => duration seg + acc) 0 l.

(* ===================================================================== *)
(** * [AnalyticsService] ([src/lib/analytics.ts]) *)
(* ===================================================================== *)

Module Analytics.
Import Js.

Inductive Format := json | csv | xlsx.

Record AnalyticsExportOptions := {
  format : Format;
  includeTranscript : bool;
  includeSentiment : bool;
  includeWordTiming : bool
}.

Record AnalyticsService := {
  participants : list (string * ParticipantData);
  currentSession : option MeetingSession;
  speakerMapping : gmap Z string
}.

(** [new AnalyticsService()] *)
Definition new : AnalyticsService :=
  {| participants := []; currentSession := None; speakerMapping := ∅ |}.

Definition set_participants (ps : list (string * ParticipantData))
    (s : AnalyticsService) : AnalyticsService :=
  {| participants := ps;
     currentSession := currentSession s;
     speakerMapping := speakerMapping s |}.

Definition set_currentSession (c : option MeetingSession)
    (s : AnalyticsService) : AnalyticsService :=
  {| participants := participants s;
     currentSession := c;
     speakerMapping := speakerMapping s |}.

Definition set_speakerMapping (m : gmap Z string)
    (s : AnalyticsService) : AnalyticsService :=
  {| participants := participants s;
     currentSession := currentSession s;
     speakerMapping := m |}.

Definition startSession (now : Z) (sessionId meetingUrl : string)
    (s : AnalyticsService) : AnalyticsService :=
  set_currentSession
    (Some {| id := sessionId;
             url := meetingUrl;
             session_startTime := now;
             session_endTime := None;
             session_participants := [];
             totalTranscript := [] |}) s.

(** Body of the [forEach] of [endSession] for one participant object. *)
Definition closeParticipant (endT : Z) (p : ParticipantData)
  : ParticipantData :=
  if negb (truthy_nullable_number (leaveTimestamp p)) then
    {| userId := userId p;
       userName := userName p;
       joinTimestamp := joinTimestamp p;
       leaveTimestamp := Some endT;
       transcript := transcript p;
       totalTimeAttended := endT - joinTimestamp p;
       totalTimeSpoken := totalTimeSpoken p;
       sentiment := sentiment p |}
  else p.

(** The [forEach] itself: it walks the session's array and writes
    through each reference. *)
Definition closeAll (endT : Z) (refs : list string)
    (ps : list (string * ParticipantData)) : list (string * ParticipantData) :=
  foldl (fun acc k =>
           match Map_get k acc with
           | Some p => Map_set k (closeParticipant endT p) acc
           | None => acc
           end) ps refs.

(** [endSession()] returns [this.currentSession]. *)
Definition endSession (now : Z) (s : AnalyticsService)
  : AnalyticsService * option MeetingSession :=
  match currentSession s with
  | Some sess =>
      let refs := Map_keys (participants s) in
      let sess' :=
        {| id := id sess;
           url := url sess;
           session_startTime := session_startTime sess;
           session_endTime := Some now;
           session_participants := refs;
           totalTranscript := totalTranscript sess |} in
      let s' :=
        {| participants := closeAll now refs (participants s);
           currentSession := Some sess';
           speakerMapping := speakerMapping s |} in
      (s', Some sess')
  | None => (s, None)
  end.

Definition neutralSentiment : SentimentScore :=
  {| overall := neutral;
     score := 0;
     emotions := {| joy := 0; sadness := 0; anger := 0; fear := 0 |} |}.

Definition addParticipant (now : Z) (uid uname : string)
    (spk : option Z) (s : AnalyticsService) : AnalyticsService :=
  if Map_has uid (participants s) then s
  else
    let participant :=
      {| userId := uid;
         userName := uname;
         joinTimestamp := now;
         leaveTimestamp := None;
         transcript := [];
         totalTimeAttended := 0;
         totalTimeSpoken := 0;
         sentiment := neutralSentiment |} in
    let s1 := set_participants (Map_set uid participant (participants s)) s in
    match spk with
    | Some i => set_speakerMapping (<[i := uid]> (speakerMapping s1)) s1
    | None => s1
    end.

Definition mapSpeakerToParticipant (spk : Z) (uid : string)
    (s : AnalyticsService) : AnalyticsService :=
  set_speakerMapping (<[spk := uid]> (speakerMapping s)) s.

(** [this.speakerMapping.get(i) || `unknown_${i}`] *)
Definition resolveUserId (s : AnalyticsService) (i : Z) : string :=
  match speakerMapping s !! i with
  | Some u => if truthy_string u then u else "unknown_" +:+ number_toString i
  | None => "unknown_" +:+ number_toString i
  end.

Definition pushSegment (segment : TranscriptSegment) (p : ParticipantData)
  : ParticipantData :=
  {| userId := userId p;
     userName := userName p;
     joinTimestamp := joinTimestamp p;
     leaveTimestamp := leaveTimestamp p;
     transcript := transcript p ++ [segment];
     totalTimeAttended := totalTimeAttended p;
     totalTimeSpoken := totalTimeSpoken p + (endTime segment - startTime segment);
     sentiment := sentiment p |}.

Definition addTranscriptSegment (now : Z) (segment : TranscriptSegment)
    (s : AnalyticsService) : AnalyticsService :=
  let uid := resolveUserId s (speakerIndex segment) in
  let s1 :=
    if negb (Map_has uid (participants s))
    then addParticipant now uid (speaker segment) (Some (speakerIndex segment)) s
    else s in
  let s2 :=
    match Map_get uid (participants s1) with
    | Some participant =>
        set_participants
          (Map_set uid (pushSegment segment participant) (participants s1)) s1
    | None => s1
    end in
  match currentSession s2 with
  | Some sess =>
      set_currentSession
        (Some {| id := id sess;
                 url := url sess;
                 session_startTime := session_startTime sess;
                 session_endTime := session_endTime sess;
                 session_participants := session_participants sess;
                 totalTranscript := totalTranscript sess ++ [segment] |}) s2
  | None => s2
  end.

Definition updateParticipantSentiment (uid : string) (sc : SentimentScore)
    (s : AnalyticsService) : AnalyticsService :=
  match Map_get uid (participants s) with
  | Some p =>
      set_participants
        (Map_set uid
           {| userId := userId p;
              userName := userName p;
              joinTimestamp := joinTimestamp p;
              leaveTimestamp := leaveTimestamp p;
              transcript := transcript p;
              totalTimeAttended := totalTimeAttended p;
              totalTimeSpoken := totalTimeSpoken p;
              sentiment := sc |} (participants s)) s
  | None => s
  end.

Definition positiveWords : list string :=
  ["good"; "great"; "excellent"; "amazing"; "fantastic"; "wonderful";
   "perfect"; "love"; "like"; "happy"; "pleased"].

Definition negativeWords : list string :=
  ["bad"; "terrible"; "awful"; "horrible"; "hate"; "dislike"; "angry";
   "frustrated"; "disappointed"; "sad"].

(** Number of words of [ws] that contain one of [lexicon]. *)
Definition countHits (lexicon ws : list string) : Z :=
  Z.of_nat
    (length (filter (fun w => Is_true (existsb (fun l => includes l w) lexicon)) ws)).

Definition analyzeSentiment (txt : string) : SentimentScore :=
  let ws := split_ws (toLowerCase txt) in
  let positiveCount := countHits positiveWords ws in
  let negativeCount := countHits negativeWords ws in
  let totalSentimentWords := positiveCount + negativeCount in
  let sc : Q :=
    if (0 <? totalSentimentWords)%Z
    then (inject_Z (positiveCount - negativeCount) / inject_Z totalSentimentWords)%Q
    else 0%Q in
  let ov :=
    if (0 <? totalSentimentWords)%Z then
      if negb (Qle_bool sc (2 # 10)) then positive
      else if negb (Qle_bool (- (2 # 10)) sc) then negative
      else neutral
    else neutral in
  {| overall := ov;
     score := sc;
     emotions :=
       {| joy := Qmax 0 sc;
          sadness := Qmax 0 (- sc);
          anger := if (2 <? negativeCount)%Z then (3 # 10)%Q else 0%Q;
          fear := 0 |} |}.

Definition markParticipantLeft (now : Z) (uid : string)
    (s : AnalyticsService) : AnalyticsService :=
  match Map_get uid (participants s) with
  | Some p =>
      if negb (truthy_nullable_number (leaveTimestamp p)) then
        set_participants
          (Map_set uid
             {| userId := userId p;
                userName := userName p;
                joinTimestamp := joinTimestamp p;
                leaveTimestamp := Some now;
                transcript := transcript p;
                totalTimeAttended := now - joinTimestamp p;
                totalTimeSpoken := totalTimeSpoken p;
                sentiment := sentiment p |} (participants s)) s
      else s
  | None => s
  end.

Definition getParticipantStats (uid : string) (s : AnalyticsService)
  : option ParticipantData := Map_get uid (participants s).

Definition getAllParticipants (s : AnalyticsService) : list ParticipantData :=
  Map_values (participants s).

(** The participant objects a session's array refers to. *)
Definition sessionParticipants (s : AnalyticsService) (sess : MeetingSession)
  : list ParticipantData :=
  omap (fun k => Map_get k (participants s)) (session_participants sess).

Definition reset (s : AnalyticsService) : AnalyticsService := new.

(** ** Summary and export *)

Record SentimentDistribution := {
  dist_positive : Z;
  dist_neutral : Z;
  dist_negative : Z
}.

Record SessionSummary := {
  totalParticipants : Z;
  totalDuration : Z;
  totalWords : Z;
  averageParticipation : Q;
  sentimentDistribution : SentimentDistribution
}.

(** [seg.text.split(' ').length] *)
Definition spaceSplitLength (txt : string) : Z :=
  Z.of_nat (length (split_char " "%char txt)).

Definition bumpSentiment (acc : SentimentDistribution) (p : ParticipantData)
  : SentimentDistribution :=
  match overall (sentiment p) with
  | positive =>
      {| dist_positive := dist_positive acc + 1;
         dist_neutral := dist_neutral acc;
         dist_negative := dist_negative acc |}
  | neutral =>
      {| dist_positive := dist_positive acc;
         dist_neutral := dist_neutral acc + 1;
         dist_negative := dist_negative acc |}
  | negative =>
      {| dist_positive := dist_positive acc;
         dist_neutral := dist_neutral acc;
         dist_negative := dist_negative acc + 1 |}
  end.

Definition getSessionSummary (now : Z) (s : AnalyticsService)
  : SessionSummary :=
  let ps := getAllParticipants s in
  let tWords :=
    foldl (fun sum p =>
             sum + foldl (fun wordSum seg => wordSum + spaceSplitLength (text seg))
                     0 (transcript p)) 0 ps in
  let totalSpokenTime := foldl (fun sum p => sum + totalTimeSpoken p) 0 ps in
  let totalSessionTime :=
    match currentSession s with
    | Some sess =>
        (if truthy_nullable_number (session_endTime sess)
         then default now (session_endTime sess) else now)
        - session_startTime sess
    | None => 0
    end in
  let sentimentCounts :=
    foldl bumpSentiment
      {| dist_positive := 0; dist_neutral := 0; dist_negative := 0 |} ps in
  {| totalParticipants := Z.of_nat (length ps);
     totalDuration := totalSessionTime;
     totalWords := tWords;
     averageParticipation :=
       if (0 <? totalSessionTime)%Z
       then (inject_Z totalSpokenTime / inject_Z totalSessionTime * 100)%Q
       else 0%Q;
     sentimentDistribution := sentimentCounts |}.

Record ExportSegment := {
  ex_speaker : string;
  ex_text : string;
  ex_startTime : Z;
  ex_endTime : Z;
  ex_confidence : Q;
  ex_words : option (list WordSegment)
}.

Record ExportParticipant := {
  ep_userId : string;
  ep_userName : string;
  ep_joinTimestamp : Z;
  ep_leaveTimestamp : option Z;
  ep_totalTimeAttended : Z;
  ep_totalTimeSpoken : Z;
  ep_sentiment : option SentimentScore;
  ep_transcript : option (list ExportSegment)
}.

(** [ed_session] is [this.currentSession] with the participant objects
    its array refers to. *)
Record ExportData := {
  ed_session : option (MeetingSession * list ParticipantData);
  ed_summary : SessionSummary;
  ed_participants : list ExportParticipant;
  ed_exportTimestamp : Z
}.

(** What the platform provides to the export: [JSON.stringify(data, null, 2)],
    [new Date(ms).toISOString()] and [x.toFixed(digits)]. *)
Class JsRuntime := {
  JSON_stringify : ExportData -> string;
  toISOString : Z -> string;
  toFixed : nat -> Q -> string
}.

Definition exportSegment (options : AnalyticsExportOptions)
    (seg : TranscriptSegment) : ExportSegment :=
  {| ex_speaker := speaker seg;
     ex_text := text seg;
     ex_startTime := startTime seg;
     ex_endTime := endTime seg;
     ex_confidence := confidence seg;
     ex_words := if includeWordTiming options then words seg else None |}.

Definition exportParticipant (options : AnalyticsExportOptions)
    (p : ParticipantData) : ExportParticipant :=
  {| ep_userId := userId p;
     ep_userName := userName p;
     ep_joinTimestamp := joinTimestamp p;
     ep_leaveTimestamp := leaveTimestamp p;
     ep_totalTimeAttended := totalTimeAttended p;
     ep_totalTimeSpoken := totalTimeSpoken p;
     ep_sentiment := if includeSentiment options then Some (sentiment p) else None;
     ep_transcript :=
       if includeTranscript options
       then Some (exportSegment options <$> transcript p) else None |}.

Definition prepareExportData (now : Z) (options : AnalyticsExportOptions)
    (s : AnalyticsService) : ExportData :=
  let ps := getAllParticipants s in
  {| ed_session :=
       (fun sess => (sess, sessionParticipants s sess)) <$> currentSession s;
     ed_summary := getSessionSummary now s;
     ed_participants := exportParticipant options <$> ps;
     ed_exportTimestamp := now |}.

(** [countWords] of [exportAsCSV] *)
Definition countWords (txt : string) : Z :=
  if negb (truthy_string txt) then 0
  else
    Z.of_nat
      (length (filter (fun w => Is_true (truthy_string w))
                 (trim <$> split_ws txt))).

(** A CSV cell before formatting: the rows hold strings, and the word
    count as a number. *)
Inductive Cell :=
| CellString (s : string)
| CellNumber (n : Z).

Definition formatCell (cell : Cell) : string :=
  match cell with
  | CellString s => s
  | CellNumber n => number_toString n
  end.

Definition quote : ascii := Ascii.ascii_of_nat 34.

(** The global [replace] of [escapeForCSV]: every double-quote
    character is written twice. *)
Fixpoint doubleQuotes (s : string) : string :=
  match s with
  | EmptyString => EmptyString
  | String c s' =>
      if decide (c = quote) then String quote (String quote (doubleQuotes s'))
      else String c (doubleQuotes s')
  end.

Definition escapeForCSV (raw : Cell) : string :=
  String quote (doubleQuotes (formatCell raw) +:+ String quote EmptyString).

Definition csvHeaders (options : AnalyticsExportOptions) : list Cell :=
  CellString <$>
    (["User ID"; "User Name"; "Join Time"; "Leave Time";
      "Time Attended (min)"; "Time Spoken (min)"; "Words Spoken"]
     ++ (if includeSentiment options
         then ["Sentiment"; "Sentiment Score"] else []))%list.

Definition overallName (o : Overall) : string :=
  match o with
  | positive => "positive"
  | neutral => "neutral"
  | negative => "negative"
  end.

(** [wordsSpoken] of a CSV row *)
Definition wordsSpoken (p : ExportParticipant) : Z :=
  match ep_transcript p with
  | Some segs => foldl (fun sum seg => sum + countWords (ex_text seg)) 0 segs
  | None => 0
  end.

Definition csvRow `{JsRuntime} (options : AnalyticsExportOptions)
    (p : ExportParticipant) : list Cell :=
  let joinTime :=
    if truthy_number (ep_joinTimestamp p)
    then toISOString (ep_joinTimestamp p) else EmptyString in
  let leaveTime :=
    match ep_leaveTimestamp p with
    | Some t => if truthy_number t then toISOString t else "Still in meeting"
    | None => "Still in meeting"
    end in
  let base :=
    [CellString (ep_userId p);
     CellString (ep_userName p);
     CellString joinTime;
     CellString leaveTime;
     CellString (toFixed 2 (inject_Z (ep_totalTimeAttended p) / 60000)%Q);
     CellString (toFixed 2 (inject_Z (ep_totalTimeSpoken p) / 60000)%Q);
     CellNumber (wordsSpoken p)] in
  if includeSentiment options then
    (base ++
       [CellString (match ep_sentiment p with
                    | Some sc => overallName (overall sc)
                    | None => "neutral"
                    end);
        CellString (match ep_sentiment p with
                    | Some sc => toFixed 3 (score sc)
                    | None => "0"
                    end)])%list
  else base.

Definition csvRows `{JsRuntime} (data : ExportData)
    (options : AnalyticsExportOptions) : list (list Cell) :=
  csvRow options <$> ed_participants data.

(** U+FEFF *)
Definition BOM : string :=
  String (Ascii.ascii_of_nat 239)
    (String (Ascii.ascii_of_nat 187)
       (String (Ascii.ascii_of_nat 191) EmptyString)).

Definition newline : string := String (Ascii.ascii_of_nat 10) EmptyString.

Definition exportAsCSV `{JsRuntime} (data : ExportData)
    (options : AnalyticsExportOptions) : string :=
  let lines :=
    (fun row => join "," (escapeForCSV <$> row))
      <$> (csvHeaders options :: csvRows data options) in
  BOM +:+ join newline lines.

Definition defaultExportOptions : AnalyticsExportOptions :=
  {| format := json;
     includeTranscript := true;
     includeSentiment := true;
     includeWordTiming := false |}.

(** [exportData(options)]: the state is only read, so the call returns
    the text or throws and the service is the one it was called on. *)
Definition exportData `{JsRuntime} (now : Z)
    (options : AnalyticsExportOptions) (s : AnalyticsService)
  : Result string :=
  let data := prepareExportData now options s in
  match format options with
  | csv => Return (exportAsCSV data options)
  | xlsx => Throw "XLSX export not implemented. Use json or csv format."
  | json => Return (JSON_stringify data)
  end.

(** The file handed to the browser by [downloadExport]. *)
Record Download := {
  download_name : string;
  download_type : string;
  download_content : string
}.

Definition downloadExport `{JsRuntime} (now : Z) (filename : string)
    (options : AnalyticsExportOptions) (s : AnalyticsService)
  : Result Download :=
  match exportData now options s with
  | Throw e => Throw e
  | Return data =>
      let mimeType :=
        match format options with csv => "text/csv" | _ => "application/json" end in
      let extension :=
        match format options with csv => ".csv" | _ => ".json" end in
      Return {| download_name := filename +:+ extension;
                download_type := mimeType;
                download_content := data |}
  end.

End Analytics.

(* ===================================================================== *)
(** * The page's transcript handler ([src/app/page.tsx]) *)
(* ===================================================================== *)

Module Page.
Import Js.

(** [prev.findIndex(f)]: the first index whose element satisfies [f];
    [None] stands for the [-1] of the source. *)
Fixpoint findIndex {A : Type} (f : A -> bool) (l : list A) : option nat :=
  match l with
  | [] => None
  | x :: l' => if f x then Some 0%nat else S <$> findIndex f l'
  end.

(** The predicate given to [findIndex] in [handleTranscriptUpdate]. *)
Definition sameSlot (segment s : TranscriptSegment) : bool :=
  (speakerIndex s =? speakerIndex segment)%Z
  && (Z.abs (startTime s - startTime segment) <? 1000)%Z.

(** The state updater passed to [setTranscript]. *)
Definition reconcile (prev : list TranscriptSegment)
    (segment : TranscriptSegment) : list TranscriptSegment :=
  match findIndex (sameSlot segment) prev with
  | Some existingIndex => <[existingIndex := segment]> prev
  | None => prev ++ [segment]
  end.

Definition botTriggers : list string :=
  ["bot"; "assistant"; "ai"; "hey bot"; "bot please"].

(** Whether [checkForBotMention] calls [handleBotResponse]. *)
Definition checkForBotMention (segment : TranscriptSegment) : bool :=
  let txt := toLowerCase (text segment) in
  existsb (fun trigger => includes trigger txt) botTriggers.

(** The component state the handler writes: the [transcript] state and
    [analyticsServiceRef.current] ([None] before the services are
    initialized). *)
Record PageState := {
  page_transcript : list TranscriptSegment;
  analyticsServiceRef : option Analytics.AnalyticsService
}.

Definition handleTranscriptUpdate (now : Z) (segment : TranscriptSegment)
    (st : PageState) : PageState :=
  {| page_transcript := reconcile (page_transcript st) segment;
     analyticsServiceRef :=
       match analyticsServiceRef st with
       | Some a =>
           let a1 := Analytics.addTranscriptSegment now segment a in
           let sc := Analytics.analyzeSentiment (text segment) in
           Some (Analytics.updateParticipantSentiment
                   ("unknown_" +:+ number_toString (speakerIndex segment)) sc a1)
       | None => None
       end |}.

(** The reconciler as the specification words it: the search runs
    backward, so the last matching segment is the one replaced. *)
Fixpoint findLastIndex {A : Type} (f : A -> bool) (l : list A) : option nat :=
  match l with
  | [] => None
  | x :: l' =>
      match findLastIndex f l' with
      | Some i => Some (S i)
      | None => if f x then Some 0%nat else None
      end
  end.

Definition reconcile_backward (prev : list TranscriptSegment)
    (segment : TranscriptSegment) : list TranscriptSegment :=
  match findLastIndex (sameSlot segment) prev with
  | Some existingIndex => <[existingIndex := segment]> prev
  | None => prev ++ [segment]
  end.

End Page.

(* ===================================================================== *)
(** * [TranscriptionService]: the connection ([src/lib/transcription.ts]) *)
(* ===================================================================== *)

Module Transcription.

(** The fields the socket handlers read and write.  [ws] tells whether
    [this.ws] holds a socket.  The message handler leaves these fields
    alone and is not part of this model. *)
Record TranscriptionService := {
  ws : bool;
  isConnected : bool;
  reconnectAttempts : Z
}.

Definition maxReconnectAttempts : Z := 3.

(** [new TranscriptionService(config)] *)
Definition new : TranscriptionService :=
  {| ws := false; isConnected := false; reconnectAttempts := 0 |}.

(** How [new WebSocket(url, protocols)] turns out inside the [try] of
    [connect]: the socket is created, or the constructor throws and the
    [catch] branch runs on the exception. *)
Inductive SocketCreation :=
| SocketCreated
| SocketThrows (message : string).

(** What reaches the service: calls of its methods, the socket's events
    and the firing of a timer set by the close handler.  A call of
    [connect], from the client or from the timer, comes with the outcome
    of its socket construction. *)
Inductive Event :=
| Connect (creation : SocketCreation)
| OnOpen
| OnError
| OnClose (code : Z)
| TimerFired (creation : SocketCreation)
| Disconnect.

(** What the service does to its environment. *)
Inductive Effect :=
| NewWebSocket
| SetTimeout (delay : Z)
| CallOnError (message : string)
| SocketClose (code : Z) (reason : string).

(** [connect(onTranscript, onError)], with the error callback the page
    gives it.  When the constructor throws, [this.ws] is not assigned and
    the exception goes to the callback. *)
Definition connect (creation : SocketCreation) (s : TranscriptionService)
  : TranscriptionService * list Effect :=
  match creation with
  | SocketCreated =>
      ({| ws := true;
          isConnected := isConnected s;
          reconnectAttempts := reconnectAttempts s |}, [NewWebSocket])
  | SocketThrows message => (s, [CallOnError message])
  end.

Definition onopen (s : TranscriptionService)
  : TranscriptionService * list Effect :=
  ({| ws := ws s; isConnected := true; reconnectAttempts := 0 |}, []).

Definition onerror (s : TranscriptionService)
  : TranscriptionService * list Effect :=
  ({| ws := ws s;
      isConnected := false;
      reconnectAttempts := reconnectAttempts s |},
   [CallOnError "WebSocket connection error"]).

Definition onclose (code : Z) (s : TranscriptionService)
  : TranscriptionService * list Effect :=
  ({| ws := ws s;
      isConnected := false;
      reconnectAttempts := reconnectAttempts s |},
   if negb (code =? 1000)%Z && (reconnectAttempts s <? maxReconnectAttempts)%Z
   then [SetTimeout (2000 * reconnectAttempts s)]
   else []).

(** The callback given to [setTimeout]. *)
Definition reconnectTimer (creation : SocketCreation) (s : TranscriptionService)
  : TranscriptionService * list Effect :=
  connect creation
    {| ws := ws s;
       isConnected := isConnected s;
       reconnectAttempts := reconnectAttempts s + 1 |}.

Definition disconnect (s : TranscriptionService)
  : TranscriptionService * list Effect :=
  if ws s then
    ({| ws := false;
        isConnected := false;
        reconnectAttempts := reconnectAttempts s |},
     [SocketClose 1000 "Intentional disconnect"])
  else (s, []).

Definition step (s : TranscriptionService) (e : Event)
  : TranscriptionService * list Effect :=
  match e with
  | Connect creation => connect creation s
  | OnOpen => onopen s
  | OnError => onerror s
  | OnClose code => onclose code s
  | TimerFired creation => reconnectTimer creation s
  | Disconnect => disconnect s
  end.

(** The effects of a sequence of events, one list per event. *)
Fixpoint run (s : TranscriptionService) (es : list Event)
  : TranscriptionService * list (list Effect) :=
  match es with
  | [] => (s, [])
  | e :: es' =>
      let '(s1, out) := step s e in
      let '(s2, outs) := run s1 es' in
      (s2, out :: outs)
  end.

(** The service together with the reconnect timers it has set and that
    have not fired yet, by delay.  The source never clears a timer, so a
    timer leaves the pool by firing only; a timer can fire only while one
    is pending. *)
Record Client := {
  service : TranscriptionService;
  pendingTimers : list Z
}.

(** The delays of the timers set by some effects. *)
Definition scheduled (out : list Effect) : list Z :=
  omap (fun e => match e with SetTimeout delay => Some delay | _ => None end) out.

Definition deliver (c : Client) (e : Event) : Client * list Effect :=
  match e with
  | TimerFired creation =>
      match pendingTimers c with
      | [] => (c, [])
      | _ :: rest =>
          let '(s', out) := reconnectTimer creation (service c) in
          ({| service := s'; pendingTimers := rest ++ scheduled out |}, out)
      end
  | _ =>
      let '(s', out) := step (service c) e in
      ({| service := s'; pendingTimers := pendingTimers c ++ scheduled out |}, out)
  end.

Fixpoint runClient (c : Client) (es : list Event)
  : Client * list (list Effect) :=
  match es with
  | [] => (c, [])
  | e :: es' =>
      let '(c1, out) := deliver c e in
      let '(c2, outs) := runClient c1 es' in
      (c2, out :: outs)
  end.

End Transcription.

(* ===================================================================== *)
(** * [ElectronApp]: the host shell's meeting window *)
(* ===================================================================== *)

Module Electron.
Import Js.

Record BrowserWindow := {
  loadedURL : string;
  webContentsId : Z
}.

Record WindowManager := {
  mainWindow : option BrowserWindow;
  meetingWindow : option BrowserWindow
}.

(** How [new BrowserWindow(...)] and the window's ['ready-to-show']
    event turn out inside [createMeetingWindow]. *)
Inductive Creation :=
| ConstructorThrows
| Constructed (wid : Z) (readyToShow : bool).

Record JoinReply := {
  success : bool;
  reply_webContentsId : option Z
}.

Definition validDomains : list string :=
  ["meet.google.com"; "zoom.us"; "teams.microsoft.com"; "webex.com";
   "gotomeeting.com"].

Section WithURL.
(** [new URL(url).hostname]; [None] when the constructor throws. *)
Variable URL_hostname : string -> option string.

Definition isValidMeetingUrl (u : string) : bool :=
  match URL_hostname u with
  | Some hostname => existsb (fun domain => includes domain hostname) validDomains
  | None => false
  end.

(** The ['join-meeting'] handler.  The reply is [None] when the promise
    of [createMeetingWindow] stays pending (the window never becomes
    ready to show). *)
Definition joinMeeting (c : Creation) (u : string) (w : WindowManager)
  : WindowManager * option JoinReply :=
  if negb (isValidMeetingUrl u) then
    (w, Some {| success := false; reply_webContentsId := None |})
  else
    match c with
    | ConstructorThrows =>
        (w, Some {| success := false; reply_webContentsId := None |})
    | Constructed wid ready =>
        ({| mainWindow := mainWindow w;
            meetingWindow := Some {| loadedURL := u; webContentsId := wid |} |},
         if ready
         then Some {| success := true; reply_webContentsId := Some wid |}
         else None)
    end.
End WithURL.

(** The ['close-meeting'] handler. *)
Definition closeMeeting (w : WindowManager) : WindowManager * bool :=
  ({| mainWindow := mainWindow w; meetingWindow := None |}, true).

End Electron.

(* ===================================================================== *)
(** * Quantities and scenarios the properties speak of *)
(* ===================================================================== *)

(** Sum of [totalTimeSpoken] over participants. *)
Definition spokenSum (ps : list ParticipantData) : Z :=
  foldr (fun p acc => totalTimeSpoken p + acc) 0 ps.

(** A sequence of [addTranscriptSegment] calls, each with the clock value
    at the call. *)
Fixpoint addSegments (calls : list (Z * TranscriptSegment))
    (s : Analytics.AnalyticsService) : Analytics.AnalyticsService :=
  match calls with
  | [] => s
  | (now, seg) :: calls' =>
      addSegments calls' (Analytics.addTranscriptSegment now seg s)
  end.

(** The word counting policy as the specification words it: split on runs
    of white space, trim each token, drop the empty tokens, count. *)
Definition wordCountPolicy (txt : string) : Z :=
  Z.of_nat
    (length (filter (fun w => w <> EmptyString) (Js.trim <$> Js.split_ws txt))).

(** A segment of speaker [i] as the recognition client builds it. *)
Definition mkSegment (i : Z) (txt : string) (t0 t1 : Z) : TranscriptSegment :=
  {| speaker := "Speaker " +:+ Js.number_toString i;
     speakerIndex := i;
     text := txt;
     startTime := t0;
     endTime := t1;
     confidence := 1;
     words := None |}.

(** The segments of a transcript that belong to speaker [i]. *)
Definition segmentsOf (i : Z) (l : list TranscriptSegment)
  : list TranscriptSegment :=
  filter (fun seg => speakerIndex seg = i) l.

(** The participant created for a segment of an unseen speaker. *)
Definition freshParticipant (now : Z) (uid : string) (seg : TranscriptSegment)
  : ParticipantData :=
  {| userId := uid;
     userName := speaker seg;
     joinTimestamp := now;
     leaveTimestamp := None;
     transcript := [];
     totalTimeAttended := 0;
     totalTimeSpoken := 0;
     sentiment := Analytics.neutralSentiment |}.

(** The participant a segment is attributed to: the one already known
    under the resolved identity, or a new one. *)
Definition attributed (now : Z) (seg : TranscriptSegment)
    (s : Analytics.AnalyticsService) : ParticipantData :=
  let uid := Analytics.resolveUserId s (speakerIndex seg) in
  default (freshParticipant now uid seg) (Js.Map_get uid (Analytics.participants s)).

Definition appendToSession (seg : TranscriptSegment) (sess : MeetingSession)
  : MeetingSession :=
  {| id := id sess;
     url := url sess;
     session_startTime := session_startTime sess;
     session_endTime := session_endTime sess;
     session_participants := session_participants sess;
     totalTranscript := totalTranscript sess ++ [seg] |}.

(** The invariant of a running session: every participant is known under
    one key, and the speaking times add up to the durations of the
    session transcript. *)
Definition conserved (s : Analytics.AnalyticsService) : Prop :=
  NoDup (Js.Map_keys (Analytics.participants s))
  /\ exists sess,
      Analytics.currentSession s = Some sess
      /\ spokenSum (Js.Map_values (Analytics.participants s))
         = durationSum (totalTranscript sess).

(** Every participant's speaking time is the sum of the durations of the
    segments in its own list. *)
Definition ownTranscriptSum (s : Analytics.AnalyticsService) : Prop :=
  forall uid p,
    Js.Map_get uid (Analytics.participants s) = Some p ->
    totalTimeSpoken p = durationSum (transcript p).

(** One failed connection: the socket closes with [code] and, when the
    close handler set a timer, the timer fires and creates the next
    socket. *)
Definition failOnce (code : Z) (s : Transcription.TranscriptionService)
  : Transcription.TranscriptionService * list Transcription.Effect :=
  let '(s1, out) := Transcription.onclose code s in
  match out with
  | [] => (s1, out)
  | _ =>
      let '(s2, out2) :=
        Transcription.reconnectTimer Transcription.SocketCreated s1 in
      (s2, (out ++ out2)%list)
  end.

Fixpoint failTimes (n : nat) (code : Z) (s : Transcription.TranscriptionService)
  : Transcription.TranscriptionService :=
  match n with
  | O => s
  | S k => failTimes k code (fst (failOnce code s))
  end.




(** [new URL(url).hostname] read on a URL of the plain form
    [http(s)://host], optionally followed by a port, a path, a query or a
    fragment: the host, lower-cased as the URL parser does.  Any other
    text gives [None]. *)
Fixpoint takeHost (s : string) : option string :=
  match s with
  | EmptyString => Some EmptyString
  | String c s' =>
      if bool_decide (c = "/"%char) || bool_decide (c = ":"%char)
         || bool_decide (c = "?"%char) || bool_decide (c = "#"%char)
      then Some EmptyString
      else if bool_decide (c = "@"%char) || bool_decide (c = "%"%char)
              || bool_decide (c = " "%char) || bool_decide (c = "\"%char)
      then None
      else String (Js.lower_ascii c) <$> takeHost s'
  end.

Fixpoint dropPrefix (p s : string) : option string :=
  match p, s with
  | EmptyString, _ => Some s
  | String a p', String b s' => if decide (a = b) then dropPrefix p' s' else None
  | _, _ => None
  end.

Definition plainHostname (u : string) : option string :=
  let rest :=
    match dropPrefix "https://" u with
    | Some r => Some r
    | None => dropPrefix "http://" u
    end in
  match rest ≫= takeHost with
  | Some EmptyString => None
  | r => r
  end.

(** The host is one of the allowed domains or a subdomain of one. *)
Definition isSuffix (suffix s : string) : bool :=
  String.prefix (String.rev suffix) (String.rev s).

Definition onAllowList (hostname : string) : bool :=
  existsb (fun domain =>
             bool_decide (hostname = domain)
             || isSuffix ("." +:+ domain) hostname) Electron.validDomains.

(** A runtime for closed examples: it prints nothing. *)
Definition silentRuntime : Analytics.JsRuntime :=
  {| Analytics.JSON_stringify := fun _ => EmptyString;
     Analytics.toISOString := fun _ => EmptyString;
     Analytics.toFixed := fun _ _ => EmptyString |}.

(** The revision scenario: segment A of speaker 0, then its revision A'. *)
Definition segA : TranscriptSegment := mkSegment 0 "Hello everyone" 0 2000.
Definition segA' : TranscriptSegment :=
  mkSegment 0 "Hello everyone welcome" 0 2500.

Definition joinedPage : Page.PageState :=
  {| Page.page_transcript := [];
     Page.analyticsServiceRef :=
       Some (Analytics.startSession 5 "session_5" "https://meet.google.com/abc"
               Analytics.new) |}.

Definition revisedPage : Page.PageState :=
  Page.handleTranscriptUpdate 20 segA'
    (Page.handleTranscriptUpdate 10 segA joinedPage).

(** A session with one segment, finalized at time 100. *)
Definition endedOnce : Analytics.AnalyticsService :=
  fst (Analytics.endSession 100
         (Analytics.addTranscriptSegment 7 segA
            (Analytics.startSession 5 "session_5" "https://meet.google.com/abc"
               Analytics.new))).

(** A service whose one segment has two spaces between its two words. *)
Definition spacedService : Analytics.AnalyticsService :=
  Analytics.addTranscriptSegment 7 (mkSegment 0 "hello  world" 0 1000)
    (Analytics.startSession 5 "session_5" "https://meet.google.com/abc"
       Analytics.new).

Definition csvOptions : Analytics.AnalyticsExportOptions :=
  {| Analytics.format := Analytics.csv;
     Analytics.includeTranscript := true;
     Analytics.includeSentiment := true;
     Analytics.includeWordTiming := false |}.

Definition xlsxOptions : Analytics.AnalyticsExportOptions :=
  {| Analytics.format := Analytics.xlsx;
     Analytics.includeTranscript := true;
     Analytics.includeSentiment := true;
     Analytics.includeWordTiming := false |}.

(** Speaker 1 speaks at 0 ms and at 1500 ms; a third event starts at
    800 ms, within one second of both. *)
Definition seg1_a : TranscriptSegment := mkSegment 1 "first" 0 400.
Definition seg1_b : TranscriptSegment := mkSegment 1 "second" 1500 1900.
Definition seg1_c : TranscriptSegment := mkSegment 1 "between" 800 1200.

(** A new segment falls in the slot of an existing one. *)
Definition inSlot (segment s : TranscriptSegment) : Prop :=
  speakerIndex s = speakerIndex segment
  /\ Z.abs (startTime s - startTime segment) < 1000.



(** A session of speaker 0 followed by a second session on the same
    service, as when the page joins a second meeting. *)
Definition firstSessionEnded : Analytics.AnalyticsService :=
  fst (Analytics.endSession 100
         (addSegments [(10, segA)]
            (Analytics.startSession 5 "session_5" "https://meet.google.com/abc"
               Analytics.new))).

Definition secondSessionEnded
  : Analytics.AnalyticsService * option MeetingSession :=
  Analytics.endSession 300
    (addSegments [(210, mkSegment 0 "Hello again" 200000 200500)]
       (Analytics.startSession 200 "session_200" "https://meet.google.com/xyz"
          firstSessionEnded)).

(** A segment handed to the service before its first session starts. *)
Definition lateSessionEnded
  : Analytics.AnalyticsService * option MeetingSession :=
  Analytics.endSession 100
    (Analytics.startSession 50 "session_50" "https://meet.google.com/abc"
       (Analytics.addTranscriptSegment 10 segA Analytics.new)).

(** A URL whose host contains an allowed domain without being that domain
    or one of its subdomains. *)
Definition lookalikeUrl : string := "https://zoom.us.evil.example/j/1".

Definition noWindows : Electron.WindowManager :=
  {| Electron.mainWindow := None; Electron.meetingWindow := None |}.

(** ** Clients of the service *)

(** The calls a client makes on an [AnalyticsService]. *)
Inductive Call :=
| DoStartSession (sessionId meetingUrl : string)
| DoEndSession
| DoAddParticipant (uid uname : string) (spk : option Z)
| DoMapSpeakerToParticipant (spk : Z) (uid : string)
| DoAddTranscriptSegment (segment : TranscriptSegment)
| DoUpdateParticipantSentiment (uid : string) (sc : SentimentScore)
| DoMarkParticipantLeft (uid : string)
| DoReset.

Definition perform (now : Z) (c : Call) (s : Analytics.AnalyticsService)
  : Analytics.AnalyticsService :=
  match c with
  | DoStartSession sessionId meetingUrl =>
      Analytics.startSession now sessionId meetingUrl s
  | DoEndSession => fst (Analytics.endSession now s)
  | DoAddParticipant uid uname spk => Analytics.addParticipant now uid uname spk s
  | DoMapSpeakerToParticipant spk uid => Analytics.mapSpeakerToParticipant spk uid s
  | DoAddTranscriptSegment segment => Analytics.addTranscriptSegment now segment s
  | DoUpdateParticipantSentiment uid sc =>
      Analytics.updateParticipantSentiment uid sc s
  | DoMarkParticipantLeft uid => Analytics.markParticipantLeft now uid s
  | DoReset => Analytics.reset s
  end.

(** A history of calls, each with the clock value at the call. *)
Fixpoint performAll (calls : list (Z * Call)) (s : Analytics.AnalyticsService)
  : Analytics.AnalyticsService :=
  match calls with
  | [] => s
  | (now, c) :: calls' => performAll calls' (perform now c s)
  end.

(** A property of every binding of a map. *)
Definition Map_Forall {V : Type} (P : string -> V -> Prop)
    (m : list (string * V)) : Prop :=
  forall k v, Js.Map_get k m = Some v -> P k v.

(** The segments a history hands to [addTranscriptSegment] all satisfy
    [okSegment]; in particular, all end no earlier than they start. *)
Definition okCall (okSegment : TranscriptSegment -> Prop) (c : Call) : Prop :=
  match c with
  | DoAddTranscriptSegment seg => okSegment seg
  | _ => True
  end.

Definition forwardSegments (calls : list (Z * Call)) : Prop :=
  Forall (fun c => okCall (fun seg => startTime seg <= endTime seg) c.2) calls.

(** A sequence of recognition events handled by the page, each with the
    clock value at its arrival. *)
Fixpoint handleAll (events : list (Z * TranscriptSegment)) (st : Page.PageState)
  : Page.PageState :=
  match events with
  | [] => st
  | (now, seg) :: events' =>
      handleAll events' (Page.handleTranscriptUpdate now seg st)
  end.

(** The placeholder identity of a speaker index. *)
Definition placeholder (i : Z) : string := "unknown_" +:+ Js.number_toString i.

(** ** Measures of the summary and the export *)

(** Sum of an integer measure over a list. *)
Definition sumZ {A : Type} (f : A -> Z) (l : list A) : Z :=
  foldr (fun x acc => f x + acc) 0 l.

(** Number of space characters (U+0020) of a text. *)
Fixpoint spaceCount (txt : string) : Z :=
  match txt with
  | EmptyString => 0
  | String c txt' => (if decide (c = " "%char) then 1 else 0) + spaceCount txt'
  end.

(** Every segment the service holds, participant after participant. *)
Definition allSegments (s : Analytics.AnalyticsService)
  : list TranscriptSegment :=
  concat (transcript <$> Analytics.getAllParticipants s).

(** A reader of one line of quoted cells, the inverse of the writer in
    [exportAsCSV]: a cell opens with a quote, a doubled quote inside
    stands for one quote, a single quote closes the cell, and a comma
    separates two cells. *)
Inductive CsvState := AtCellStart | InCell | AfterQuote.

Fixpoint parseCells (st : CsvState) (cur : string) (s : string)
  : option (list string) :=
  match s with
  | EmptyString =>
      match st with AfterQuote => Some [cur] | _ => None end
  | String c s' =>
      match st with
      | AtCellStart =>
          if decide (c = Analytics.quote) then parseCells InCell EmptyString s'
          else None
      | InCell =>
          if decide (c = Analytics.quote) then parseCells AfterQuote cur s'
          else parseCells InCell (cur +:+ String c EmptyString) s'
      | AfterQuote =>
          if decide (c = Analytics.quote)
          then parseCells InCell (cur +:+ String Analytics.quote EmptyString) s'
          else if decide (c = ","%char)
               then cons cur <$> parseCells AtCellStart EmptyString s'
               else None
      end
  end.

(** ** Sending audio ([src/lib/transcription.ts]) *)

(** Whether [sendAudio] hands the chunk to the socket.  [readyStateOpen]
    tells whether the socket held by [this.ws] is in the state [OPEN]; it
    is read only when there is a socket. *)
Definition sendAudio (readyStateOpen : bool)
    (s : Transcription.TranscriptionService) : bool :=
  Transcription.ws s && Transcription.isConnected s && readyStateOpen.

(** [isWebSocketConnected()] *)
Definition isWebSocketConnected (readyStateOpen : bool)
    (s : Transcription.TranscriptionService) : bool :=
  Transcription.isConnected s && (Transcription.ws s && readyStateOpen).

Definition isSetTimeout (e : Transcription.Effect) : bool :=
  match e with Transcription.SetTimeout _ => true | _ => false end.

(* ===================================================================== *)
(** * Facts about the JavaScript helpers *)
(* ===================================================================== *)

Module JsFacts.
Import Js.

Section MapFacts.
Context {V : Type}.
Implicit Types (m : list (string * V)) (k : string) (v : V).

Lemma Map_get_set_eq k v m : Map_get k (Map_set k v m) = Some v.
Proof.
  induction m as [|[k' v'] m IH]; simpl.
  - by rewrite decide_True.
  - destruct (decide (k' = k)) as [->|Hne]; simpl.
    + by rewrite decide_True.
    + by rewrite decide_False.
Qed.

Lemma Map_get_set_ne k k' v m :
  k <> k' -> Map_get k' (Map_set k v m) = Map_get k' m.
Proof.
  intros Hne. induction m as [|[k0 v0] m IH]; simpl.
  - by rewrite decide_False.
  - destruct (decide (k0 = k)) as [->|Hk0]; simpl.
    + by rewrite !decide_False.
    + by rewrite IH.
Qed.

Lemma Map_set_new k v m :
  Map_get k m = None -> Map_set k v m = m ++ [(k, v)].
Proof.
  induction m as [|[k' v'] m IH]; simpl; [done|].
  destruct (decide (k' = k)); [done|]. intros H. by rewrite IH.
Qed.

Lemma Map_keys_set_old k v v0 m :
  Map_get k m = Some v0 -> Map_keys (Map_set k v m) = Map_keys m.
Proof.
  unfold Map_keys.
  induction m as [|[k' v'] m IH]; simpl; [done|].
  destruct (decide (k' = k)) as [->|]; simpl; [done|].
  intros H. f_equal. by apply IH.
Qed.

Lemma Map_get_None_keys k m : Map_get k m = None -> k ∉ Map_keys m.
Proof.
  unfold Map_keys.
  induction m as [|[k' v'] m IH]; simpl; [intros _; apply not_elem_of_nil|].
  destruct (decide (k' = k)); [done|].
  intros H. apply not_elem_of_cons. split; [congruence|auto].
Qed.

Lemma Map_set_NoDup k v m :
  NoDup (Map_keys m) -> NoDup (Map_keys (Map_set k v m)).
Proof.
  intros Hnd. destruct (Map_get k m) as [v0|] eqn:Hget.
  - by rewrite (Map_keys_set_old _ _ _ _ Hget).
  - rewrite (Map_set_new _ _ _ Hget). unfold Map_keys in *.
    rewrite fmap_app. simpl. apply NoDup_app. split; [done|].
    split; [|apply NoDup_singleton].
    intros x Hx Hx'. apply list_elem_of_singleton in Hx'. subst x.
    by apply (Map_get_None_keys _ _ Hget).
Qed.

Lemma Map_read_skip k v m (ks : list string) :
  k ∉ ks ->
  omap (fun k' => Map_get k' ((k, v) :: m)) ks
  = omap (fun k' => Map_get k' m) ks.
Proof.
  induction ks as [|k0 ks IH]; intros Hk; [done|].
  apply not_elem_of_cons in Hk as [Hne Hk]. specialize (IH Hk).
  change (omap ?f (k0 :: ks))
    with (match f k0 with Some y => y :: omap f ks | None => omap f ks end).
  rewrite IH. cbn [Map_get]. by rewrite decide_False.
Qed.

(** Reading every key of a map gives its values, in order. *)
Lemma Map_read_all m :
  NoDup (Map_keys m) ->
  omap (fun k => Map_get k m) (Map_keys m) = Map_values m.
Proof.
  unfold Map_keys, Map_values.
  induction m as [|[k v] m IH]; simpl; [done|].
  intros Hnd. apply NoDup_cons in Hnd as [Hk Hnd].
  rewrite decide_True by done. f_equal.
  etrans; [|exact (IH Hnd)]. by apply (Map_read_skip k v m).
Qed.
End MapFacts.

End JsFacts.

(* ===================================================================== *)
(** * Facts about [AnalyticsService] *)
(* ===================================================================== *)

Module AnalyticsFacts.
Import Js JsFacts Analytics.

Lemma Map_set_set {V : Type} k (v1 v2 : V) m :
  Map_set k v2 (Map_set k v1 m) = Map_set k v2 m.
Proof.
  induction m as [|[k' v'] m IH]; simpl.
  - by rewrite decide_True.
  - destruct (decide (k' = k)) as [->|Hne]; simpl.
    + by rewrite decide_True.
    + rewrite decide_False by done. by rewrite IH.
Qed.

Lemma durationSum_snoc l seg :
  durationSum (l ++ [seg]) = durationSum l + duration seg.
Proof. unfold durationSum. induction l as [|x l IH]; simpl; lia. Qed.

Lemma spokenSum_set_old uid p p' (ps : list (string * ParticipantData)) :
  Map_get uid ps = Some p ->
  spokenSum (Map_values (Map_set uid p' ps))
  = spokenSum (Map_values ps) - totalTimeSpoken p + totalTimeSpoken p'.
Proof.
  unfold Map_values, spokenSum.
  induction ps as [|[k v] ps IH]; csimpl; [done|].
  destruct (decide (k = uid)) as [->|Hne]; csimpl.
  - intros [= ->]. lia.
  - intros H. specialize (IH H). lia.
Qed.

Lemma spokenSum_set_new uid p' (ps : list (string * ParticipantData)) :
  Map_get uid ps = None ->
  spokenSum (Map_values (Map_set uid p' ps))
  = spokenSum (Map_values ps) + totalTimeSpoken p'.
Proof.
  unfold Map_values, spokenSum.
  induction ps as [|[k v] ps IH]; csimpl; [lia|].
  destruct (decide (k = uid)) as [->|Hne]; csimpl; [done|].
  intros H. specialize (IH H). lia.
Qed.

(** What one call of [addTranscriptSegment] writes. *)
Lemma addTranscriptSegment_writes now seg s :
  let uid := resolveUserId s (speakerIndex seg) in
  let s' := addTranscriptSegment now seg s in
  participants s'
  = Map_set uid (pushSegment seg (attributed now seg s)) (participants s)
  /\ currentSession s' = appendToSession seg <$> currentSession s.
Proof.
  cbv zeta. unfold addTranscriptSegment, attributed.
  set (uid := resolveUserId s (speakerIndex seg)).
  unfold Map_has, addParticipant, Map_has, set_speakerMapping,
    set_currentSession, set_participants.
  destruct (Map_get uid (participants s)) as [p|] eqn:Hget; simpl.
  - rewrite ?Hget. simpl. destruct (currentSession s); split; reflexivity.
  - rewrite ?Hget. simpl. rewrite Map_get_set_eq. simpl.
    rewrite Map_set_set. destruct (currentSession s); split; reflexivity.
Qed.

Lemma closeParticipant_spoken endT p :
  totalTimeSpoken (closeParticipant endT p) = totalTimeSpoken p.
Proof. unfold closeParticipant. by case_match. Qed.

Lemma closeAll_keys endT refs ps :
  Map_keys (closeAll endT refs ps) = Map_keys ps.
Proof.
  unfold closeAll. revert ps.
  induction refs as [|k refs IH]; intros ps; simpl; [done|].
  rewrite IH. destruct (Map_get k ps) as [p|] eqn:Hget; [|done].
  by apply (Map_keys_set_old _ _ p).
Qed.

Lemma closeAll_spoken endT refs ps :
  spokenSum (Map_values (closeAll endT refs ps)) = spokenSum (Map_values ps).
Proof.
  unfold closeAll. revert ps.
  induction refs as [|k refs IH]; intros ps; simpl; [done|].
  rewrite IH. destruct (Map_get k ps) as [p|] eqn:Hget; [|done].
  rewrite (spokenSum_set_old _ p) by done.
  rewrite closeParticipant_spoken. lia.
Qed.

Lemma conserved_startSession now sid u s :
  participants s = [] -> conserved (startSession now sid u s).
Proof.
  intros Hps. split; simpl; rewrite Hps; [constructor|].
  eexists; split; [done|]. done.
Qed.

Lemma conserved_addTranscriptSegment now seg s :
  conserved s -> conserved (addTranscriptSegment now seg s).
Proof.
  intros [Hnd (sess & Hsess & Hsum)].
  destruct (addTranscriptSegment_writes now seg s) as [Hps Hcur].
  split.
  - rewrite Hps. by apply Map_set_NoDup.
  - rewrite Hcur, Hsess. simpl. eexists; split; [done|]. simpl.
    rewrite durationSum_snoc, Hps. unfold attributed.
    destruct (Map_get _ (participants s)) as [p|] eqn:Hget; simpl.
    + rewrite (spokenSum_set_old _ p) by done. simpl. unfold duration. lia.
    + rewrite spokenSum_set_new by done. simpl. unfold duration. lia.
Qed.

Lemma conserved_addSegments calls s :
  conserved s -> conserved (addSegments calls s).
Proof.
  revert s. induction calls as [|[now seg] calls IH]; intros s Hs; [done|].
  simpl. apply IH. by apply conserved_addTranscriptSegment.
Qed.

(** ** The participant's own list only grows *)

Lemma ownTranscriptSum_new : ownTranscriptSum new.
Proof. intros uid p H. discriminate H. Qed.

Lemma ownTranscriptSum_addTranscriptSegment now seg s :
  ownTranscriptSum s -> ownTranscriptSum (addTranscriptSegment now seg s).
Proof.
  intros Hown uid p.
  destruct (addTranscriptSegment_writes now seg s) as [-> _].
  destruct (decide (resolveUserId s (speakerIndex seg) = uid)) as [<-|Hne].
  - rewrite Map_get_set_eq. intros [= <-]. simpl.
    rewrite durationSum_snoc. unfold duration. f_equal.
    unfold attributed.
    destruct (Map_get _ (participants s)) as [p0|] eqn:Hget; simpl; [|done].
    by apply (Hown _ _ Hget).
  - rewrite Map_get_set_ne by done. apply Hown.
Qed.

Lemma ownTranscriptSum_updateParticipantSentiment uid sc s :
  ownTranscriptSum s -> ownTranscriptSum (updateParticipantSentiment uid sc s).
Proof.
  intros Hown uid' p'. unfold updateParticipantSentiment.
  destruct (Map_get uid (participants s)) as [p|] eqn:Hget; [|apply Hown].
  simpl. destruct (decide (uid = uid')) as [<-|Hne].
  - rewrite Map_get_set_eq. intros [= <-]. simpl. by apply (Hown _ _ Hget).
  - rewrite Map_get_set_ne by done. apply Hown.
Qed.

(** The transcript handler keeps it so: whatever the reconciler does with
    the displayed transcript, the service adds the duration of every
    segment it is handed to the participant's speaking time. *)
Lemma ownTranscriptSum_handleTranscriptUpdate now seg st a :
  Page.analyticsServiceRef st = Some a ->
  ownTranscriptSum a ->
  exists a',
    Page.analyticsServiceRef (Page.handleTranscriptUpdate now seg st) = Some a'
    /\ ownTranscriptSum a'.
Proof.
  intros Ha Hown. unfold Page.handleTranscriptUpdate. simpl. rewrite Ha.
  eexists. split; [reflexivity|].
  by apply ownTranscriptSum_updateParticipantSentiment,
    ownTranscriptSum_addTranscriptSegment.
Qed.

(** [endSession] stamps the session with the clock of the call, ended
    before or not. *)
Lemma endSession_stamps now s sess :
  currentSession s = Some sess ->
  session_endTime <$> snd (endSession now s) = Some (Some now)
  /\ session_endTime <$> currentSession (fst (endSession now s))
     = Some (Some now).
Proof. intros H. unfold endSession. by rewrite H. Qed.

End AnalyticsFacts.

(* ===================================================================== *)
(** * Properties of the session aggregator and the export *)
(* ===================================================================== *)

Module AnalyticsProperties.
Import Js JsFacts Analytics AnalyticsFacts.

Lemma sessionParticipants_all s sess :
  NoDup (Map_keys (participants s)) ->
  session_participants sess = Map_keys (participants s) ->
  sessionParticipants s sess = getAllParticipants s.
Proof.
  intros Hnd Hrefs. unfold sessionParticipants, getAllParticipants.
  rewrite Hrefs. by apply Map_read_all.
Qed.

(** C2 (conservation), as the code has it.  A service that holds no
    participants when the session starts - a new or a reset one - runs a
    session: [startSession], any sequence of [addTranscriptSegment]
    calls, then [endSession].  The call of [endSession] returns the
    finalized session, and the sum of [totalTimeSpoken] over the
    participants of that session equals the sum of [endTime - startTime]
    over its [totalTranscript]. *)
Theorem conservation_of_speaking_time
    (s0 : AnalyticsService) (t0 t1 : Z) (sid u : string)
    (calls : list (Z * TranscriptSegment)) :
  participants s0 = [] ->
  exists s' sess,
    endSession t1 (addSegments calls (startSession t0 sid u s0))
    = (s', Some sess)
    /\ currentSession s' = Some sess
    /\ session_endTime sess = Some t1
    /\ sessionParticipants s' sess = getAllParticipants s'
    /\ spokenSum (sessionParticipants s' sess)
       = durationSum (totalTranscript sess).
Proof.
  intros Hps.
  pose proof (conserved_addSegments calls _
                (conserved_startSession t0 sid u s0 Hps))
    as [Hnd (sess & Hsess & Hsum)].
  set (s1 := addSegments calls (startSession t0 sid u s0)) in *.
  unfold endSession. rewrite Hsess.
  eexists _, _. split; [reflexivity|].
  split; [reflexivity|]. split; [reflexivity|].
  match goal with
  | |- ?L = ?R /\ _ => assert (Hall : L = R)
  end.
  { apply sessionParticipants_all; simpl; by rewrite closeAll_keys. }
  split; [exact Hall|]. rewrite Hall. unfold getAllParticipants. simpl.
  rewrite closeAll_spoken. exact Hsum.
Qed.

(** Conservation on a new service, for two segments of two speakers. *)
Lemma conservation_of_speaking_time_witness :
  participants new = []
  /\ exists s' sess,
      endSession 100
        (addSegments [(10, segA); (20, mkSegment 1 "Hi" 2100 2600)]
           (startSession 5 "session_5" "https://meet.google.com/abc" new))
      = (s', Some sess)
      /\ currentSession s' = Some sess
      /\ session_endTime sess = Some 100
      /\ sessionParticipants s' sess = getAllParticipants s'
      /\ spokenSum (sessionParticipants s' sess)
         = durationSum (totalTranscript sess).
Proof.
  split; [reflexivity|].
  apply (conservation_of_speaking_time new 5 100). reflexivity.
Defined.

(** C2 as stated fails when participants are older than the session:
    [startSession] keeps them and their speaking time.  In a second
    session on the same service, speaker 0 speaks for 500 ms but enters
    the finalized session with the 2000 ms of the first session too:
    2500 against 500.  And a segment of 2000 ms handed to the service
    before its first session starts is in the participant's total and
    not in the session's transcript: 2000 against 0. *)
Lemma conservation_fails_with_earlier_participants :
  (exists s' sess,
      secondSessionEnded = (s', Some sess)
      /\ spokenSum (sessionParticipants s' sess) = 2500
      /\ durationSum (totalTranscript sess) = 500
      /\ spokenSum (sessionParticipants s' sess)
         <> durationSum (totalTranscript sess))
  /\ (exists s' sess,
        lateSessionEnded = (s', Some sess)
        /\ spokenSum (sessionParticipants s' sess) = 2000
        /\ durationSum (totalTranscript sess) = 0
        /\ spokenSum (sessionParticipants s' sess)
           <> durationSum (totalTranscript sess)).
Proof.
  split; eexists _, _; (split; [reflexivity|]);
    (split; [reflexivity|]); (split; [reflexivity|]); discriminate.
Qed.

(** C10.  A call of [addTranscriptSegment] while no session is active
    still writes the participant: the segment is appended to the
    transcript of the participant it resolves to and its duration is
    added to that participant's [totalTimeSpoken]; an unseen participant
    is created first.  Other participants are untouched, there is still
    no session, and a session started afterwards begins with an empty
    [totalTranscript]. *)
Theorem addTranscriptSegment_without_session
    (now : Z) (seg : TranscriptSegment) (s : AnalyticsService) :
  currentSession s = None ->
  let uid := resolveUserId s (speakerIndex seg) in
  let s' := addTranscriptSegment now seg s in
  currentSession s' = None
  /\ (forall p, Map_get uid (participants s) = Some p ->
        exists p',
          Map_get uid (participants s') = Some p'
          /\ transcript p' = transcript p ++ [seg]
          /\ totalTimeSpoken p'
             = totalTimeSpoken p + (endTime seg - startTime seg))
  /\ (Map_get uid (participants s) = None ->
        exists p',
          Map_get uid (participants s') = Some p'
          /\ userId p' = uid
          /\ userName p' = speaker seg
          /\ joinTimestamp p' = now
          /\ leaveTimestamp p' = None
          /\ transcript p' = [seg]
          /\ totalTimeSpoken p' = endTime seg - startTime seg)
  /\ (forall k, k <> uid ->
        Map_get k (participants s') = Map_get k (participants s))
  /\ (forall t sid u,
        totalTranscript <$> currentSession (startSession t sid u s')
        = Some []).
Proof.
  intros Hnone uid s'.
  destruct (addTranscriptSegment_writes now seg s) as [Hps Hcur].
  fold uid in Hps. fold s' in Hps, Hcur.
  split; [by rewrite Hcur, Hnone|].
  split; [|split; [|split]].
  - intros p Hp. exists (pushSegment seg p).
    rewrite Hps, Map_get_set_eq. unfold attributed. fold uid.
    by rewrite Hp.
  - intros Hp. exists (pushSegment seg (freshParticipant now uid seg)).
    rewrite Hps, Map_get_set_eq. unfold attributed. fold uid.
    rewrite Hp. simpl. repeat split; reflexivity.
  - intros k Hk. rewrite Hps. by apply Map_get_set_ne.
  - reflexivity.
Qed.

(** A first segment handed to a new service, which has no session. *)
Lemma addTranscriptSegment_without_session_witness :
  currentSession new = None
  /\ currentSession (addTranscriptSegment 10 segA new) = None
  /\ (Map_get "unknown_0" (participants new) = None ->
        exists p',
          Map_get "unknown_0" (participants (addTranscriptSegment 10 segA new))
          = Some p'
          /\ userId p' = "unknown_0"
          /\ userName p' = "Speaker 0"
          /\ joinTimestamp p' = 10
          /\ leaveTimestamp p' = None
          /\ transcript p' = [segA]
          /\ totalTimeSpoken p' = 2000 - 0).
Proof.
  split; [reflexivity|].
  pose proof (addTranscriptSegment_without_session 10 segA new eq_refl)
    as (H1 & _ & H3 & _).
  split; [exact H1|exact H3].
Defined.

(** C1.  Segment A of speaker 0 (0..2000 ms) and then its revision A'
    (0..2500 ms) go through [handleTranscriptUpdate].  The reconciled
    transcript holds the one segment A', of 2500 ms, while the
    participant has both segments in its list and 4500 ms of speaking
    time: the duration of the replaced segment is counted too. *)
Theorem revised_segment_is_counted_twice :
  Page.page_transcript revisedPage = [segA']
  /\ durationSum (segmentsOf 0 (Page.page_transcript revisedPage)) = 2500
  /\ exists a p,
      Page.analyticsServiceRef revisedPage = Some a
      /\ getParticipantStats "unknown_0" a = Some p
      /\ transcript p = [segA; segA']
      /\ totalTimeSpoken p = 4500.
Proof.
  split; [reflexivity|]. split; [reflexivity|].
  eexists _, _. repeat split; reflexivity.
Qed.

(** C8.  A session finalized at time 100 is ended again at time 200: the
    session's [endTime] becomes 200, while the participant keeps the
    [leaveTimestamp] 100 and the attendance of the first call. *)
Theorem second_endSession_restamps_endTime :
  session_endTime <$> currentSession endedOnce = Some (Some 100)
  /\ session_endTime <$> snd (endSession 200 endedOnce) = Some (Some 200)
  /\ participants (fst (endSession 200 endedOnce)) = participants endedOnce
  /\ (leaveTimestamp <$> getParticipantStats "unknown_0" endedOnce)
     = Some (Some 100)
  /\ fst (endSession 200 endedOnce) <> endedOnce.
Proof.
  repeat split; try reflexivity.
  intros H. apply (f_equal currentSession) in H. discriminate H.
Qed.

(** C6.  An export in the format [xlsx] throws the error whose message
    names the format and says that it is not implemented, whatever the
    options, the clock and the state; [downloadExport] throws the same
    error and builds no file.  The service is only read. *)
Theorem xlsx_export_throws `{JsRuntime}
    (now : Z) (filename : string) (options : AnalyticsExportOptions)
    (s : AnalyticsService) :
  format options = xlsx ->
  exportData now options s
  = Throw "XLSX export not implemented. Use json or csv format."
  /\ downloadExport now filename options s
     = Throw "XLSX export not implemented. Use json or csv format."
  /\ includes "XLSX" "XLSX export not implemented. Use json or csv format."
     = true
  /\ includes "not implemented"
       "XLSX export not implemented. Use json or csv format." = true.
Proof.
  intros Hf. unfold downloadExport, exportData. rewrite Hf.
  repeat split; reflexivity.
Qed.

(** The spreadsheet export of a finalized session. *)
Lemma xlsx_export_throws_witness :
  format xlsxOptions = xlsx
  /\ @exportData silentRuntime 100 xlsxOptions endedOnce
     = Throw "XLSX export not implemented. Use json or csv format."
  /\ @downloadExport silentRuntime 100 "meeting-session_5-1970-01-01"
       xlsxOptions endedOnce
     = Throw "XLSX export not implemented. Use json or csv format.".
Proof.
  split; [reflexivity|].
  pose proof (@xlsx_export_throws silentRuntime 100
                "meeting-session_5-1970-01-01" xlsxOptions endedOnce eq_refl)
    as (H1 & H2 & _).
  split; [exact H1|exact H2].
Defined.

(** The word count of the tabular export follows the policy. *)
Lemma countWords_policy (txt : string) : countWords txt = wordCountPolicy txt.
Proof.
  unfold countWords, wordCountPolicy.
  destruct txt as [|c txt]; [reflexivity|]. simpl negb. cbv iota.
  do 2 f_equal. apply list_filter_iff. intros w. by destruct w.
Qed.

(** C7.  For a participant whose one segment reads "hello", two spaces,
    "world", the policy counts 2 words and so does the tabular export,
    while the session summary, which the structured export embeds,
    reports 3. *)
Theorem summary_word_count_is_not_the_policy :
  wordCountPolicy "hello  world" = 2
  /\ wordsSpoken <$> ed_participants (prepareExportData 9 csvOptions spacedService)
     = [2]
  /\ totalWords (getSessionSummary 9 spacedService) = 3
  /\ totalWords (ed_summary (prepareExportData 9 defaultExportOptions spacedService))
     = 3.
Proof. repeat split; vm_compute; reflexivity. Qed.

End AnalyticsProperties.

(* ===================================================================== *)
(** * Properties of the segment reconciler *)
(* ===================================================================== *)

Module ReconcilerProperties.
Import Page.

Lemma sameSlot_inSlot segment s : sameSlot segment s = true <-> inSlot segment s.
Proof.
  unfold sameSlot, inSlot.
  rewrite andb_true_iff, Z.eqb_eq, Z.ltb_lt. tauto.
Qed.

Lemma sameSlot_refl segment : sameSlot segment segment = true.
Proof. apply sameSlot_inSlot. split; [done|]. rewrite Z.sub_diag. done. Qed.

Section FindIndex.
Context {A : Type} (f : A -> bool).
Implicit Types (l : list A) (i : nat).

Lemma findIndex_Some l i :
  findIndex f l = Some i <->
  (exists x, l !! i = Some x /\ f x = true)
  /\ (forall j y, (j < i)%nat -> l !! j = Some y -> f y = false).
Proof.
  revert i. induction l as [|a l IH]; intros i; simpl.
  - split; [done|]. by intros [(x & Hx & _) _].
  - destruct (f a) eqn:Hfa.
    + split.
      * intros [= <-]. split; [by exists a|]. intros j y Hj. lia.
      * intros [(x & Hx & Hfx) Hlt]. destruct i as [|i]; [done|].
        specialize (Hlt 0%nat a ltac:(lia) eq_refl). congruence.
    + destruct (findIndex f l) as [i'|] eqn:Hfind; simpl.
      * destruct (proj1 (IH i') eq_refl) as [(x & Hx & Hfx) Hlt]. split.
        -- intros [= <-]. split; [by exists x|].
           intros [|j] y Hj Hy; simpl in Hy; [congruence|].
           apply (Hlt j); [lia|done].
        -- intros [(x' & Hx' & Hfx') Hlt']. destruct i as [|i].
           { simpl in Hx'. congruence. }
           f_equal. simpl in Hx'.
           destruct (Nat.lt_trichotomy i i') as [Hc|[Hc|Hc]]; [|congruence|].
           ++ specialize (Hlt i x' Hc Hx'). congruence.
           ++ specialize (Hlt' (S i') x ltac:(lia) Hx). congruence.
      * split; [done|]. intros [(x & Hx & Hfx) Hlt].
        destruct i as [|i]; simpl in Hx; [congruence|].
        assert (Hsome : @None nat = Some i); [|congruence].
        apply IH. split; [by exists x|].
        intros j y Hj Hy. apply (Hlt (S j)); [lia|done].
Qed.

Lemma findIndex_None l :
  findIndex f l = None <-> (forall x, x ∈ l -> f x = false).
Proof.
  induction l as [|a l IH]; simpl.
  - split; [|done]. intros _ x Hx. by apply elem_of_nil in Hx.
  - destruct (f a) eqn:Hfa.
    + split; [done|]. intros H. specialize (H a (list_elem_of_here _ _)).
      congruence.
    + destruct (findIndex f l) eqn:Hfind; simpl.
      * split; [done|]. intros H.
        assert (Hn : Some n = None); [|done].
        apply IH. intros x Hx. apply H. by right.
      * split; [|done]. intros _ x Hx.
        apply elem_of_cons in Hx as [->|Hx]; [done|].
        by apply IH.
Qed.

(** Writing a matching element over the first match keeps it first. *)
Lemma findIndex_insert l i x :
  findIndex f l = Some i -> f x = true ->
  findIndex f (<[i := x]> l) = Some i.
Proof.
  revert i. induction l as [|a l IH]; intros i; simpl; [done|].
  destruct (f a) eqn:Hfa.
  - intros [= <-] Hfx. simpl. by rewrite Hfx.
  - destruct (findIndex f l) as [i'|] eqn:Hfind; simpl; [|done].
    intros [= <-] Hfx. simpl. rewrite Hfa, (IH i') by done. done.
Qed.

(** A matching element appended to a list without match is found at
    the end. *)
Lemma findIndex_snoc l x :
  findIndex f l = None -> f x = true ->
  findIndex f (l ++ [x]) = Some (length l).
Proof.
  induction l as [|a l IH]; simpl.
  - intros _ ->. done.
  - destruct (f a); [done|].
    destruct (findIndex f l) eqn:Hfind; simpl; [done|].
    intros _ Hfx. by rewrite IH.
Qed.
End FindIndex.

(** C4 (idempotence).  Applying a segment to the transcript a second
    time gives the transcript obtained after the first application: the
    second application overwrites the slot written by the first with the
    same content, and the length does not grow. *)
Theorem reconcile_idempotent
    (prev : list TranscriptSegment) (segment : TranscriptSegment) :
  reconcile (reconcile prev segment) segment = reconcile prev segment
  /\ length (reconcile (reconcile prev segment) segment)
     = length (reconcile prev segment)
  /\ exists i,
      findIndex (sameSlot segment) (reconcile prev segment) = Some i
      /\ reconcile prev segment !! i = Some segment.
Proof.
  assert (Hstep : exists i,
             findIndex (sameSlot segment) (reconcile prev segment) = Some i
             /\ reconcile prev segment !! i = Some segment
             /\ <[i := segment]> (reconcile prev segment)
                = reconcile prev segment).
  { unfold reconcile.
    destruct (findIndex (sameSlot segment) prev) as [i|] eqn:Hfind.
    - exists i. pose proof Hfind as Hi.
      apply findIndex_Some in Hi as [(x & Hx & _) _].
      apply lookup_lt_Some in Hx.
      split; [apply findIndex_insert; [done|apply sameSlot_refl]|].
      split; [by apply list_lookup_insert_eq|].
      apply list_insert_insert_eq.
    - exists (length prev).
      split; [apply findIndex_snoc; [done|apply sameSlot_refl]|].
      split; [by rewrite lookup_app_r, Nat.sub_diag|].
      rewrite insert_app_r_alt, Nat.sub_diag by done. done. }
  destruct Hstep as (i & Hfind & Hlook & Hins).
  assert (Hre : reconcile (reconcile prev segment) segment
                = reconcile prev segment).
  { unfold reconcile at 1. by rewrite Hfind. }
  split; [exact Hre|]. split; [by rewrite Hre|]. by exists i.
Qed.

(** C3, as the code has it.  The reconciler looks, from the start of the
    transcript, for the first segment with the speaker index of the new
    one and a start time less than 1000 ms away from its start time (a
    distance of exactly 1000 ms does not match).  It replaces that
    segment by the new one, in place; without such a segment it appends.
    Hence two events of one speaker starting less than 1000 ms apart
    (500 ms, say) leave one segment, the later one, and two events
    starting 1000 ms or more apart (1500 ms, say) leave two. *)
Theorem reconcile_first_match
    (prev : list TranscriptSegment) (segment : TranscriptSegment) :
  (forall i s,
      prev !! i = Some s ->
      inSlot segment s ->
      (forall j s', (j < i)%nat -> prev !! j = Some s' -> ~ inSlot segment s') ->
      reconcile prev segment = <[i := segment]> prev
      /\ length (reconcile prev segment) = length prev
      /\ reconcile prev segment !! i = Some segment)
  /\ ((forall s, s ∈ prev -> ~ inSlot segment s) ->
      reconcile prev segment = prev ++ [segment])
  /\ (forall e1,
        speakerIndex e1 = speakerIndex segment ->
        (Z.abs (startTime e1 - startTime segment) < 1000 ->
         reconcile (reconcile [] e1) segment = [segment])
        /\ (1000 <= Z.abs (startTime e1 - startTime segment) ->
            reconcile (reconcile [] e1) segment = [e1; segment])).
Proof.
  split; [|split].
  - intros i s Hs Hin Hfirst.
    assert (Hfind : findIndex (sameSlot segment) prev = Some i).
    { apply findIndex_Some. split.
      - exists s. split; [done|]. by apply sameSlot_inSlot.
      - intros j y Hj Hy. specialize (Hfirst j y Hj Hy).
        destruct (sameSlot segment y) eqn:Hy'; [|done].
        by apply sameSlot_inSlot in Hy'. }
    unfold reconcile. rewrite Hfind. split; [done|].
    split; [apply length_insert|].
    apply list_lookup_insert_eq. by eapply lookup_lt_Some.
  - intros Hnone.
    assert (Hfind : findIndex (sameSlot segment) prev = None).
    { apply findIndex_None. intros x Hx. specialize (Hnone x Hx).
      destruct (sameSlot segment x) eqn:Hx'; [|done].
      by apply sameSlot_inSlot in Hx'. }
    unfold reconcile. by rewrite Hfind.
  - intros e1 Hspk. unfold reconcile. simpl. split.
    + intros Hlt.
      assert (H : sameSlot segment e1 = true)
        by (by apply sameSlot_inSlot).
      by rewrite H.
    + intros Hge.
      assert (H : sameSlot segment e1 = false).
      { destruct (sameSlot segment e1) eqn:H'; [|done].
        apply sameSlot_inSlot in H' as [_ H']. lia. }
      by rewrite H.
Qed.

(** The two examples of one speaker, 500 ms and 1500 ms apart, and the
    event that matches two segments. *)
Lemma reconcile_first_match_witness :
  reconcile (reconcile [] (mkSegment 1 "hello" 0 400))
    (mkSegment 1 "hello there" 500 1200)
  = [mkSegment 1 "hello there" 500 1200]
  /\ reconcile (reconcile [] (mkSegment 1 "hello" 0 400))
       (mkSegment 1 "bye" 1500 1900)
     = [mkSegment 1 "hello" 0 400; mkSegment 1 "bye" 1500 1900]
  /\ reconcile [seg1_a; seg1_b] seg1_c = <[0%nat := seg1_c]> [seg1_a; seg1_b].
Proof.
  split; [|split].
  - destruct (reconcile_first_match [] (mkSegment 1 "hello there" 500 1200))
      as (_ & _ & H).
    apply (H (mkSegment 1 "hello" 0 400) eq_refl). simpl. lia.
  - destruct (reconcile_first_match [] (mkSegment 1 "bye" 1500 1900))
      as (_ & _ & H).
    apply (H (mkSegment 1 "hello" 0 400) eq_refl). simpl. lia.
  - destruct (reconcile_first_match [seg1_a; seg1_b] seg1_c) as (H & _ & _).
    apply (H 0%nat seg1_a eq_refl).
    + split; [reflexivity|]. simpl. lia.
    + intros j s' Hj. lia.
Defined.

(** C3 as stated fails on the direction of the search.  Speaker 1 has a
    segment starting at 0 ms and one starting at 1500 ms; an event
    starting at 800 ms is within the window of both.  A backward search
    would replace the later segment; the code replaces the earlier. *)
Lemma reconcile_replaces_first_match_not_last :
  reconcile (reconcile [] seg1_a) seg1_b = [seg1_a; seg1_b]
  /\ reconcile [seg1_a; seg1_b] seg1_c = [seg1_c; seg1_b]
  /\ reconcile_backward [seg1_a; seg1_b] seg1_c = [seg1_a; seg1_c]
  /\ reconcile [seg1_a; seg1_b] seg1_c
     <> reconcile_backward [seg1_a; seg1_b] seg1_c.
Proof.
  split; [reflexivity|]. split; [reflexivity|]. split; [reflexivity|].
  intros H. apply (f_equal (fun l => text <$> l !! 0%nat)) in H.
  discriminate H.
Qed.

End ReconcilerProperties.

(* ===================================================================== *)
(** * Properties of the recognition client's reconnection *)
(* ===================================================================== *)

Module TranscriptionProperties.
Import Transcription.












End TranscriptionProperties.

(* ===================================================================== *)
(** * Properties of the host shell's URL check *)
(* ===================================================================== *)

Module ElectronProperties.
Import Js Electron.

(** A URL that fails the check is refused and no window is touched. *)
Lemma joinMeeting_invalid URL_hostname c u w :
  isValidMeetingUrl URL_hostname u = false ->
  joinMeeting URL_hostname c u w
  = (w, Some {| success := false; reply_webContentsId := None |}).
Proof. intros H. unfold joinMeeting. by rewrite H. Qed.

(** The check passes as soon as the host contains an allowed domain. *)
Lemma isValidMeetingUrl_includes URL_hostname u hostname domain :
  URL_hostname u = Some hostname ->
  domain ∈ validDomains ->
  includes domain hostname = true ->
  isValidMeetingUrl URL_hostname u = true.
Proof.
  intros Hh Hd Hinc. unfold isValidMeetingUrl. rewrite Hh.
  apply existsb_exists. exists domain. split; [|done].
  by apply list_elem_of_In.
Qed.

(** C9.  The host [zoom.us.evil.example] is neither an allowed domain nor
    a subdomain of one, yet it contains [zoom.us]: the check accepts the
    URL, the meeting window is created on it and the join request
    reports success. *)
Theorem lookalike_host_is_accepted :
  plainHostname lookalikeUrl = Some "zoom.us.evil.example"
  /\ onAllowList "zoom.us.evil.example" = false
  /\ isValidMeetingUrl plainHostname lookalikeUrl = true
  /\ joinMeeting plainHostname (Constructed 7 true) lookalikeUrl noWindows
     = ({| mainWindow := None;
           meetingWindow :=
             Some {| loadedURL := lookalikeUrl; webContentsId := 7 |} |},
        Some {| success := true; reply_webContentsId := Some 7 |}).
Proof. repeat split; reflexivity. Qed.

End ElectronProperties.

(* ===================================================================== *)
(** * Invariants of [AnalyticsService] over any history of calls *)
(* ===================================================================== *)

Module AnalyticsInvariants.
Import Js JsFacts Analytics AnalyticsFacts.

Lemma Map_Forall_set {V : Type} (P : string -> V -> Prop) k v m :
  Map_Forall P m -> P k v -> Map_Forall P (Map_set k v m).
Proof.
  intros Hm Hv k' v'. destruct (decide (k = k')) as [<-|Hne].
  - rewrite Map_get_set_eq. by intros [= <-].
  - rewrite Map_get_set_ne by done. apply Hm.
Qed.

Lemma closeParticipant_fields endT p :
  userId (closeParticipant endT p) = userId p
  /\ transcript (closeParticipant endT p) = transcript p
  /\ totalTimeSpoken (closeParticipant endT p) = totalTimeSpoken p.
Proof. unfold closeParticipant. by case_match. Qed.

Lemma closeAll_NoDup endT refs ps :
  NoDup (Map_keys ps) -> NoDup (Map_keys (closeAll endT refs ps)).
Proof. by rewrite closeAll_keys. Qed.

Lemma perform_NoDup now c s :
  NoDup (Map_keys (participants s)) ->
  NoDup (Map_keys (participants (perform now c s))).
Proof.
  intros Hnd. destruct c; simpl; try done.
  - unfold endSession. destruct (currentSession s); simpl; [|done].
    by apply closeAll_NoDup.
  - unfold addParticipant. destruct (Map_has uid (participants s)); [done|].
    destruct spk; simpl; by apply Map_set_NoDup.
  - destruct (addTranscriptSegment_writes now segment s) as [-> _].
    by apply Map_set_NoDup.
  - unfold updateParticipantSentiment.
    destruct (Map_get uid (participants s)); simpl; [|done].
    by apply Map_set_NoDup.
  - unfold markParticipantLeft.
    destruct (Map_get uid (participants s)); simpl; [|done].
    case_match; simpl; [|done]. by apply Map_set_NoDup.
  - constructor.
Qed.

Lemma performAll_NoDup calls s :
  NoDup (Map_keys (participants s)) ->
  NoDup (Map_keys (participants (performAll calls s))).
Proof.
  revert s. induction calls as [|[now c] calls IH]; intros s Hnd; [done|].
  simpl. apply IH. by apply perform_NoDup.
Qed.

(** ** Properties of participants that every call keeps *)

Section Preservation.
Variable P : string -> ParticipantData -> Prop.
Variable okSegment : TranscriptSegment -> Prop.

(** [P] looks at the identity, the segment list and the speaking time
    only, holds of a participant just created, and is kept when a
    segment that satisfies [okSegment] is pushed. *)
Hypothesis P_frame :
  forall k p p',
    P k p -> userId p' = userId p -> transcript p' = transcript p ->
    totalTimeSpoken p' = totalTimeSpoken p -> P k p'.
Hypothesis P_fresh :
  forall k now uname,
    P k {| userId := k; userName := uname; joinTimestamp := now;
           leaveTimestamp := None; transcript := [];
           totalTimeAttended := 0; totalTimeSpoken := 0;
           sentiment := neutralSentiment |}.
Hypothesis P_push :
  forall k p seg, okSegment seg -> P k p -> P k (pushSegment seg p).

Lemma closeAll_keeps endT refs ps :
  Map_Forall P ps -> Map_Forall P (closeAll endT refs ps).
Proof.
  unfold closeAll. revert ps.
  induction refs as [|k refs IH]; intros ps Hps; simpl; [done|].
  apply IH. destruct (Map_get k ps) as [p|] eqn:Hget; [|done].
  apply Map_Forall_set; [done|].
  destruct (closeParticipant_fields endT p) as (H1 & H2 & H3).
  by apply (P_frame k p); [apply Hps|..].
Qed.

Lemma perform_keeps now c s :
  okCall okSegment c ->
  Map_Forall P (participants s) ->
  Map_Forall P (participants (perform now c s)).
Proof.
  intros Hok Hs. destruct c; simpl; try done.
  - unfold endSession. destruct (currentSession s); simpl; [|done].
    by apply closeAll_keeps.
  - unfold addParticipant. destruct (Map_has uid (participants s)); [done|].
    destruct spk; simpl; by apply Map_Forall_set.
  - destruct (addTranscriptSegment_writes now segment s) as [-> _].
    apply Map_Forall_set; [done|]. apply P_push; [done|].
    unfold attributed.
    destruct (Map_get _ (participants s)) as [p|] eqn:Hget; simpl.
    + by apply Hs.
    + apply P_fresh.
  - unfold updateParticipantSentiment.
    destruct (Map_get uid (participants s)) as [p|] eqn:Hget; simpl; [|done].
    apply Map_Forall_set; [done|]. by apply (P_frame uid p); [apply Hs|..].
  - unfold markParticipantLeft.
    destruct (Map_get uid (participants s)) as [p|] eqn:Hget; simpl; [|done].
    case_match; simpl; [|done].
    apply Map_Forall_set; [done|]. by apply (P_frame uid p); [apply Hs|..].
Qed.

Lemma performAll_keeps calls s :
  Forall (fun c => okCall okSegment c.2) calls ->
  Map_Forall P (participants s) ->
  Map_Forall P (participants (performAll calls s)).
Proof.
  revert s. induction calls as [|[now c] calls IH]; intros s Hok Hs; [done|].
  apply Forall_cons in Hok as [Hc Hok]. simpl. apply IH; [done|].
  by apply perform_keeps.
Qed.
End Preservation.

Lemma Map_Forall_new (P : string -> ParticipantData -> Prop) :
  Map_Forall P (participants new).
Proof. intros k v H. discriminate H. Qed.

Lemma Forall_okCall_True (calls : list (Z * Call)) :
  Forall (fun c => okCall (fun _ => True) c.2) calls.
Proof. apply Forall_forall. intros [now c] _. by destruct c. Qed.

Lemma Map_get_elem_of {V : Type} k (v : V) m :
  NoDup (Map_keys m) -> (k, v) ∈ m -> Map_get k m = Some v.
Proof.
  unfold Map_keys. induction m as [|[k' v'] m IH]; csimpl; intros Hnd Hin.
  - by apply elem_of_nil in Hin.
  - apply NoDup_cons in Hnd as [Hk' Hnd].
    apply elem_of_cons in Hin as [[= -> ->]|Hin].
    + by rewrite decide_True.
    + rewrite decide_False; [by apply IH|].
      intros ->. apply Hk'. apply list_elem_of_fmap. by exists (k, v).
Qed.

(** Whatever calls were made on a new service, no two participants
    share a [userId], and the participant found under an identity has
    that [userId]. *)
Theorem participants_are_keyed_by_userId (calls : list (Z * Call)) :
  let s := performAll calls new in
  NoDup (userId <$> getAllParticipants s)
  /\ (forall uid p, getParticipantStats uid s = Some p -> userId p = uid)
  /\ (forall p, p ∈ getAllParticipants s ->
        getParticipantStats (userId p) s = Some p).
Proof.
  intros s.
  assert (Hnd : NoDup (Map_keys (participants s)))
    by (apply performAll_NoDup; constructor).
  assert (Hkey : Map_Forall (fun k p => userId p = k) (participants s)).
  { apply (performAll_keeps _ (fun _ => True)).
    - intros k p p' Hp Hu _ _. congruence.
    - done.
    - by intros k p seg _ Hp.
    - apply Forall_okCall_True.
    - apply Map_Forall_new. }
  assert (Hall : forall k p, (k, p) ∈ participants s -> userId p = k).
  { intros k p Hin. apply Hkey. by apply Map_get_elem_of. }
  split; [|split].
  - unfold getAllParticipants, Map_values, Map_keys in *.
    replace (userId <$> (participants s).*2) with ((participants s).*1); [done|].
    rewrite <- list_fmap_compose. apply list_fmap_ext.
    intros i [k p] Hi. simpl. symmetry. apply Hall.
    by eapply list_elem_of_lookup_2.
  - intros uid p. apply Hkey.
  - intros p Hp. unfold getAllParticipants, Map_values in Hp.
    apply list_elem_of_fmap in Hp as ([k p'] & -> & Hin). simpl.
    rewrite (Hall _ _ Hin). by apply Map_get_elem_of.
Qed.

(** Whatever calls were made on a new service, the speaking time of every
    participant is the sum of [endTime - startTime] over the segments of
    its own transcript. *)
Theorem speaking_time_is_sum_of_own_segments (calls : list (Z * Call)) :
  forall uid p,
    getParticipantStats uid (performAll calls new) = Some p ->
    totalTimeSpoken p = durationSum (transcript p).
Proof.
  apply (performAll_keeps
           (fun _ p => totalTimeSpoken p = durationSum (transcript p))
           (fun _ => True)).
  - intros k p p' Hp _ Ht Hs. by rewrite Hs, Ht.
  - done.
  - intros k p seg _ Hp. simpl. rewrite durationSum_snoc, Hp. done.
  - apply Forall_okCall_True.
  - apply Map_Forall_new.
Qed.

(** Segment A and its revision, both handed to a new service. *)
Lemma speaking_time_is_sum_of_own_segments_witness :
  exists p,
    getParticipantStats "unknown_0"
      (performAll [(10, DoAddTranscriptSegment segA);
                   (20, DoAddTranscriptSegment segA')] new) = Some p
    /\ totalTimeSpoken p = durationSum (transcript p).
Proof.
  eexists. split; [reflexivity|].
  apply (speaking_time_is_sum_of_own_segments
           [(10, DoAddTranscriptSegment segA);
            (20, DoAddTranscriptSegment segA')] "unknown_0").
  reflexivity.
Defined.

(** When every segment handed to the service ends no earlier than it
    starts, no participant ever has a negative speaking time. *)
Theorem speaking_time_is_never_negative (calls : list (Z * Call)) :
  forwardSegments calls ->
  forall uid p,
    getParticipantStats uid (performAll calls new) = Some p ->
    0 <= totalTimeSpoken p.
Proof.
  intros Hfw.
  apply (performAll_keeps (fun _ p => 0 <= totalTimeSpoken p)
           (fun seg => startTime seg <= endTime seg)).
  - intros k p p' Hp _ _ Hs. by rewrite Hs.
  - done.
  - intros k p seg Hseg Hp. simpl. lia.
  - exact Hfw.
  - apply Map_Forall_new.
Qed.

(** One segment of speaker 0, from 0 to 2000 ms, on a new service. *)
Lemma speaking_time_is_never_negative_witness :
  forwardSegments [(10, DoAddTranscriptSegment segA)]
  /\ forall uid p,
      getParticipantStats uid
        (performAll [(10, DoAddTranscriptSegment segA)] new) = Some p ->
      0 <= totalTimeSpoken p.
Proof.
  assert (H : forwardSegments [(10, DoAddTranscriptSegment segA)]).
  { apply Forall_cons. split; [simpl; lia|constructor]. }
  split; [exact H|].
  exact (speaking_time_is_never_negative
           [(10, DoAddTranscriptSegment segA)] H).
Defined.

End AnalyticsInvariants.

(* ===================================================================== *)
(** * Attendance, registration and attribution *)
(* ===================================================================== *)

Module ParticipantProperties.
Import Js JsFacts Analytics AnalyticsFacts AnalyticsInvariants.

Lemma closeAll_get endT refs ps uid :
  NoDup refs ->
  Map_get uid (closeAll endT refs ps)
  = if decide (uid ∈ refs)
    then closeParticipant endT <$> Map_get uid ps
    else Map_get uid ps.
Proof.
  unfold closeAll. revert ps.
  induction refs as [|k refs IH]; intros ps Hnd.
  - destruct (decide (uid ∈ [])) as [H|_]; [by apply elem_of_nil in H|done].
  - apply NoDup_cons in Hnd as [Hk Hnd].
    change (foldl ?f ps (k :: refs)) with (foldl f (f ps k) refs).
    rewrite (IH _ Hnd).
    destruct (decide (uid = k)) as [->|Hne].
    + destruct (decide (k ∈ refs)) as [?|_]; [done|].
      destruct (decide (k ∈ k :: refs)) as [_|H];
        [|by exfalso; apply H, list_elem_of_here].
      destruct (Map_get k ps) as [p|] eqn:Hget; [|by rewrite Hget].
      by rewrite Map_get_set_eq.
    + assert (Hget : Map_get uid
                       match Map_get k ps with
                       | Some p => Map_set k (closeParticipant endT p) ps
                       | None => ps
                       end = Map_get uid ps).
      { destruct (Map_get k ps); [|done]. by apply Map_get_set_ne. }
      rewrite Hget.
      destruct (decide (uid ∈ refs)) as [Hin|Hnin];
        destruct (decide (uid ∈ k :: refs)) as [Hin'|Hnin']; try done.
      * exfalso. apply Hnin'. by apply list_elem_of_further.
      * apply elem_of_cons in Hin' as [?|?]; done.
Qed.

Lemma Map_get_Some_keys {V : Type} k (v : V) m :
  Map_get k m = Some v -> k ∈ Map_keys m.
Proof.
  unfold Map_keys. induction m as [|[k' v'] m IH]; csimpl; [done|].
  destruct (decide (k' = k)) as [->|Hne].
  - intros _. apply list_elem_of_here.
  - intros H. apply list_elem_of_further. by apply IH.
Qed.

(** Attendance closure.  After any history of calls on a new service that
    leaves a session open, [endSession] at time [now] closes every
    participant: one that had not left gets [leaveTimestamp = now] and
    [totalTimeAttended = now - joinTimestamp]; one that had left (at a
    non-zero time) is kept as it is.  Nothing else of a participant
    changes. *)
Theorem endSession_closes_every_participant
    (calls : list (Z * Call)) (now : Z) (sess : MeetingSession) :
  let s := performAll calls new in
  currentSession s = Some sess ->
  forall uid p,
    getParticipantStats uid s = Some p ->
    exists p',
      getParticipantStats uid (fst (endSession now s)) = Some p'
      /\ userId p' = userId p /\ userName p' = userName p
      /\ joinTimestamp p' = joinTimestamp p
      /\ transcript p' = transcript p
      /\ totalTimeSpoken p' = totalTimeSpoken p
      /\ sentiment p' = sentiment p
      /\ match leaveTimestamp p with
         | Some t =>
             if (t =? 0)%Z
             then leaveTimestamp p' = Some now
                  /\ totalTimeAttended p' = now - joinTimestamp p
             else p' = p
         | None =>
             leaveTimestamp p' = Some now
             /\ totalTimeAttended p' = now - joinTimestamp p
         end.
Proof.
  intros s Hsess uid p Hp. unfold getParticipantStats in *.
  assert (Hnd : NoDup (Map_keys (participants s)))
    by (apply performAll_NoDup; constructor).
  exists (closeParticipant now p). split.
  - unfold endSession. rewrite Hsess. simpl.
    rewrite closeAll_get by done.
    rewrite decide_True by (by eapply Map_get_Some_keys).
    by rewrite Hp.
  - unfold closeParticipant, truthy_nullable_number, truthy_number.
    destruct (leaveTimestamp p) as [t|] eqn:Hleave; simpl.
    + destruct (t =? 0)%Z eqn:Ht; simpl; repeat split; done.
    + repeat split; done.
Qed.

(** A participant registered at time 3 and not seen leaving. *)
Lemma endSession_closes_every_participant_witness :
  exists sess p',
    currentSession
      (performAll [(1, DoStartSession "s" "u");
                   (3, DoAddParticipant "alice" "Alice" None)] new)
    = Some sess
    /\ getParticipantStats "alice"
         (fst (endSession 50
                 (performAll [(1, DoStartSession "s" "u");
                              (3, DoAddParticipant "alice" "Alice" None)] new)))
       = Some p'
    /\ leaveTimestamp p' = Some 50
    /\ totalTimeAttended p' = 47.
Proof.
  eexists.
  destruct (endSession_closes_every_participant
              [(1, DoStartSession "s" "u");
               (3, DoAddParticipant "alice" "Alice" None)] 50 _ eq_refl
              "alice" _ eq_refl)
    as (p' & Hget & _ & _ & _ & _ & _ & _ & Hleave & Hatt).
  exists p'. split; [reflexivity|]. split; [exact Hget|].
  split; [exact Hleave|exact Hatt].
Defined.

(** A departure is recorded once: after [markParticipantLeft] at a
    non-zero time, marking the same participant again changes nothing. *)
Theorem markParticipantLeft_once
    (t1 t2 : Z) (uid : string) (s : AnalyticsService) :
  t1 <> 0 ->
  markParticipantLeft t2 uid (markParticipantLeft t1 uid s)
  = markParticipantLeft t1 uid s.
Proof.
  intros Ht1. unfold markParticipantLeft at 2 3.
  destruct (Map_get uid (participants s)) as [p|] eqn:Hget.
  - destruct (negb (truthy_nullable_number (leaveTimestamp p))) eqn:Hleft.
    + unfold markParticipantLeft. simpl. rewrite Map_get_set_eq. simpl.
      unfold truthy_number. by rewrite (proj2 (Z.eqb_neq t1 0) Ht1).
    + unfold markParticipantLeft. by rewrite Hget, Hleft.
  - unfold markParticipantLeft. by rewrite Hget.
Qed.

(** Alice leaves at time 40; a second mark at time 90 is ignored. *)
Lemma markParticipantLeft_once_witness :
  40 <> 0
  /\ markParticipantLeft 90 "alice"
       (markParticipantLeft 40 "alice"
          (addParticipant 3 "alice" "Alice" None new))
     = markParticipantLeft 40 "alice"
         (addParticipant 3 "alice" "Alice" None new).
Proof.
  split; [lia|]. apply markParticipantLeft_once. lia.
Defined.

(** The first registration of an identity wins: a second [addParticipant]
    for the same [userId] changes nothing - neither the name, nor the join
    time, nor the speaker mapping. *)
Theorem addParticipant_first_registration_wins
    (t1 t2 : Z) (uid n1 n2 : string) (spk1 spk2 : option Z)
    (s : AnalyticsService) :
  addParticipant t2 uid n2 spk2 (addParticipant t1 uid n1 spk1 s)
  = addParticipant t1 uid n1 spk1 s.
Proof.
  unfold addParticipant at 2 3.
  destruct (Map_has uid (participants s)) eqn:Hhas.
  - unfold addParticipant. by rewrite Hhas.
  - assert (H : forall s', participants s' = Map_set uid
                    {| userId := uid; userName := n1; joinTimestamp := t1;
                       leaveTimestamp := None; transcript := [];
                       totalTimeAttended := 0; totalTimeSpoken := 0;
                       sentiment := neutralSentiment |} (participants s) ->
                  addParticipant t2 uid n2 spk2 s' = s').
    { intros s' Hs'. unfold addParticipant, Map_has.
      by rewrite Hs', Map_get_set_eq. }
    destruct spk1; apply H; reflexivity.
Qed.

Lemma truthy_placeholder i : truthy_string ("unknown_" +:+ number_toString i) = true.
Proof. reflexivity. Qed.

Lemma truthy_resolveUserId s i : truthy_string (resolveUserId s i) = true.
Proof.
  unfold resolveUserId. destruct (speakerMapping s !! i) as [u|]; [|done].
  by destruct (truthy_string u) eqn:Hu.
Qed.

Lemma addTranscriptSegment_mapping now seg s :
  let uid := resolveUserId s (speakerIndex seg) in
  speakerMapping (addTranscriptSegment now seg s)
  = if Map_has uid (participants s) then speakerMapping s
    else <[speakerIndex seg := uid]> (speakerMapping s).
Proof.
  cbv zeta. unfold addTranscriptSegment.
  set (uid := resolveUserId s (speakerIndex seg)).
  unfold Map_has, addParticipant, Map_has, set_speakerMapping,
    set_currentSession, set_participants.
  destruct (Map_get uid (participants s)) as [p|] eqn:Hget; simpl.
  - rewrite ?Hget. simpl. by destruct (currentSession s).
  - rewrite ?Hget. simpl. rewrite Map_get_set_eq. simpl.
    by destruct (currentSession s).
Qed.

(** Attribution is stable: once a segment of a speaker has been added, the
    speaker index resolves to the same identity as before the call, and
    no other speaker index is resolved differently.  So a placeholder
    identity, once created, keeps receiving its speaker's segments. *)
Theorem attribution_is_stable
    (now : Z) (seg : TranscriptSegment) (s : AnalyticsService) :
  forall i,
    resolveUserId (addTranscriptSegment now seg s) i = resolveUserId s i.
Proof.
  intros i. unfold resolveUserId at 1.
  rewrite addTranscriptSegment_mapping.
  destruct (Map_has _ (participants s)); [done|].
  destruct (decide (speakerIndex seg = i)) as [<-|Hne].
  - rewrite lookup_insert_eq. by rewrite truthy_resolveUserId.
  - by rewrite lookup_insert_ne.
Qed.

(** A segment is credited to the identity its speaker index resolves to,
    and to no one else: that participant exists afterwards with the
    segment last in its transcript, and every other participant is as
    before. *)
Theorem segment_goes_to_the_resolved_participant
    (now : Z) (seg : TranscriptSegment) (s : AnalyticsService) :
  let uid := resolveUserId s (speakerIndex seg) in
  let s' := addTranscriptSegment now seg s in
  (exists p, getParticipantStats uid s' = Some p
             /\ last (transcript p) = Some seg
             /\ userId p = userId (attributed now seg s))
  /\ (forall k, k <> uid -> getParticipantStats k s' = getParticipantStats k s)
  /\ (totalTranscript <$> currentSession s'
      = (fun sess => totalTranscript sess ++ [seg]) <$> currentSession s).
Proof.
  intros uid s'. unfold getParticipantStats.
  destruct (addTranscriptSegment_writes now seg s) as [Hps Hcur].
  fold uid in Hps. fold s' in Hps, Hcur. rewrite Hps, Hcur.
  split; [|split].
  - exists (pushSegment seg (attributed now seg s)).
    rewrite Map_get_set_eq. split; [done|]. simpl. by rewrite last_snoc.
  - intros k Hk. by apply Map_get_set_ne.
  - by destruct (currentSession s).
Qed.

End ParticipantProperties.

(* ===================================================================== *)
(** * The page handler and the service together *)
(* ===================================================================== *)

Module HandlerProperties.
Import Js JsFacts Analytics AnalyticsFacts AnalyticsInvariants Page.

Lemma updateParticipantSentiment_session uid sc s :
  currentSession (updateParticipantSentiment uid sc s) = currentSession s.
Proof.
  unfold updateParticipantSentiment. by destruct (Map_get uid (participants s)).
Qed.

Lemma reconcile_length prev seg :
  (length prev <= length (reconcile prev seg) <= length prev + 1)%nat.
Proof.
  unfold reconcile. destruct (findIndex (sameSlot seg) prev).
  - rewrite length_insert. lia.
  - rewrite length_app. simpl. lia.
Qed.

(** The service's session transcript records every recognition event,
    while the displayed transcript merges revisions: after any sequence of
    events handled on a page whose service has an open session, the
    session transcript has grown by one segment per event and the
    displayed transcript by at most as many. *)
Theorem session_transcript_records_every_event
    (events : list (Z * TranscriptSegment)) (st : PageState)
    (a : AnalyticsService) (sess : MeetingSession) :
  analyticsServiceRef st = Some a ->
  currentSession a = Some sess ->
  exists a' sess',
    analyticsServiceRef (handleAll events st) = Some a'
    /\ currentSession a' = Some sess'
    /\ totalTranscript sess' = totalTranscript sess ++ events.*2
    /\ (length (page_transcript st)
        <= length (page_transcript (handleAll events st))
        <= length (page_transcript st) + length events)%nat.
Proof.
  revert st a sess.
  induction events as [|[now seg] events IH]; intros st a sess Ha Hsess.
  - exists a, sess. split; [done|]. split; [done|].
    split; [by rewrite app_nil_r|]. simpl. lia.
  - simpl.
    set (st1 := handleTranscriptUpdate now seg st).
    destruct (addTranscriptSegment_writes now seg a) as [_ Hcur].
    rewrite Hsess in Hcur. simpl in Hcur.
    destruct (IH st1
                (updateParticipantSentiment
                   ("unknown_" +:+ number_toString (speakerIndex seg))
                   (analyzeSentiment (text seg))
                   (addTranscriptSegment now seg a))
                (appendToSession seg sess))
      as (a' & sess' & Ha' & Hsess' & Htr & Hlen).
    + unfold st1, handleTranscriptUpdate. simpl. by rewrite Ha.
    + by rewrite updateParticipantSentiment_session.
    + exists a', sess'. split; [done|]. split; [done|].
      split.
      * rewrite Htr. simpl. by rewrite <- app_assoc.
      * pose proof (reconcile_length (page_transcript st) seg) as Hr.
        assert (Hst1 : page_transcript st1 = reconcile (page_transcript st) seg)
          by reflexivity.
        rewrite Hst1 in Hlen. simpl length. lia.
Qed.

(** Two events of speaker 0 in the same slot: one displayed segment, two
    recorded ones. *)
Lemma session_transcript_records_every_event_witness :
  exists a' sess',
    analyticsServiceRef (handleAll [(10, segA); (20, segA')] joinedPage)
    = Some a'
    /\ currentSession a' = Some sess'
    /\ totalTranscript sess' = [segA; segA']
    /\ Nat.le
         (length (page_transcript (handleAll [(10, segA); (20, segA')] joinedPage)))
         2.
Proof.
  destruct (session_transcript_records_every_event
              [(10, segA); (20, segA')] joinedPage _ _ eq_refl eq_refl)
    as (a' & sess' & H1 & H2 & H3 & H4).
  exists a', sess'. split; [exact H1|]. split; [exact H2|].
  split; [exact H3|]. exact (proj2 H4).
Defined.

(** Sentiment is last-write-wins for a speaker without explicit binding:
    when the speaker index resolves to its placeholder identity, the
    handler leaves that participant with the sentiment of the segment
    just handled.  When the speaker index is bound to another identity,
    the participant credited with the segment keeps the sentiment it had
    (the neutral one if it is new): the handler writes the sentiment under
    the placeholder identity only. *)
Theorem handler_sentiment
    (now : Z) (seg : TranscriptSegment) (st : PageState)
    (a : AnalyticsService) :
  analyticsServiceRef st = Some a ->
  let uid := resolveUserId a (speakerIndex seg) in
  exists a' p',
    analyticsServiceRef (handleTranscriptUpdate now seg st) = Some a'
    /\ getParticipantStats uid a' = Some p'
    /\ sentiment p'
       = if decide (uid = placeholder (speakerIndex seg))
         then analyzeSentiment (text seg)
         else sentiment (attributed now seg a).
Proof.
  intros Ha uid. unfold handleTranscriptUpdate, getParticipantStats.
  simpl. rewrite Ha.
  destruct (addTranscriptSegment_writes now seg a) as [Hps _].
  fold uid in Hps. fold (placeholder (speakerIndex seg)).
  set (a1 := addTranscriptSegment now seg a) in *.
  unfold updateParticipantSentiment.
  destruct (decide (uid = placeholder (speakerIndex seg))) as [Heq|Hne].
  - rewrite <- Heq.
    assert (Hget : Map_get uid (participants a1)
                   = Some (pushSegment seg (attributed now seg a)))
      by (by rewrite Hps, Map_get_set_eq).
    rewrite Hget. eexists _, _. split; [reflexivity|]. simpl.
    rewrite Map_get_set_eq. split; reflexivity.
  - assert (Hget : forall ps,
               Map_get uid ps = Some (pushSegment seg (attributed now seg a)) ->
               forall v, Map_get uid (Map_set (placeholder (speakerIndex seg)) v ps)
                         = Some (pushSegment seg (attributed now seg a))).
    { intros ps Hps' v. by rewrite Map_get_set_ne. }
    assert (Huid : Map_get uid (participants a1)
                   = Some (pushSegment seg (attributed now seg a)))
      by (by rewrite Hps, Map_get_set_eq).
    destruct (Map_get (placeholder (speakerIndex seg)) (participants a1));
      eexists _, _; (split; [reflexivity|]); simpl.
    + rewrite (Hget _ Huid). split; reflexivity.
    + rewrite Huid. split; reflexivity.
Qed.

(** The first segment of speaker 0 on a page that joined a meeting. *)
Lemma handler_sentiment_witness :
  exists a' p',
    analyticsServiceRef (handleTranscriptUpdate 10 segA joinedPage) = Some a'
    /\ getParticipantStats "unknown_0" a' = Some p'
    /\ sentiment p' = analyzeSentiment "Hello everyone".
Proof.
  destruct (handler_sentiment 10 segA joinedPage _ eq_refl)
    as (a' & p' & H1 & H2 & H3).
  exists a', p'. split; [exact H1|]. split; [exact H2|exact H3].
Defined.

End HandlerProperties.

(* ===================================================================== *)
(** * Facts about strings *)
(* ===================================================================== *)

Module StringFacts.
Import Js.

Lemma string_app_cons c s t : String c s +:+ t = String c (s +:+ t).
Proof. reflexivity. Qed.

Lemma string_app_nil_l s : EmptyString +:+ s = s.
Proof. reflexivity. Qed.

Lemma string_app_nil_r s : s +:+ EmptyString = s.
Proof. induction s as [|c s IH]; [done|]. by rewrite string_app_cons, IH. Qed.

Lemma string_app_assoc s t u : (s +:+ t) +:+ u = s +:+ (t +:+ u).
Proof. induction s as [|c s IH]; [done|]. by rewrite !string_app_cons, IH. Qed.

Lemma prefix_app p s : String.prefix p (p +:+ s) = true.
Proof.
  induction p as [|c p IH]; [by destruct s|].
  rewrite string_app_cons. simpl. by destruct (ascii_dec c c).
Qed.

Lemma prefix_inv p s :
  String.prefix p s = true -> exists r, s = p +:+ r.
Proof.
  revert p. induction s as [|c s IH]; intros [|a p]; simpl.
  - by exists EmptyString.
  - done.
  - by exists (String c s).
  - destruct (ascii_dec a c) as [->|]; [|done].
    intros H. destruct (IH _ H) as [r ->]. by exists r.
Qed.

(** [includes] is the substring relation. *)
Lemma includes_spec needle hay :
  includes needle hay = true <->
  exists pre post, hay = pre +:+ needle +:+ post.
Proof.
  split.
  - induction hay as [|c hay IH]; cbn [includes].
    + rewrite orb_false_r. intros H. apply prefix_inv in H as [r ->].
      by exists EmptyString, r.
    + intros H. apply orb_true_iff in H as [H|H].
      * apply prefix_inv in H as [r ->]. by exists EmptyString, r.
      * destruct (IH H) as (pre & post & ->). by exists (String c pre), post.
  - intros (pre & post & ->). induction pre as [|c pre IH].
    + rewrite string_app_nil_l.
      assert (Hp : String.prefix needle (needle +:+ post) = true)
        by apply prefix_app.
      destruct (needle +:+ post); cbn [includes]; by rewrite Hp.
    + rewrite string_app_cons. cbn [includes]. rewrite IH. apply orb_true_r.
Qed.

Lemma includes_trans a b c :
  includes a b = true -> includes b c = true -> includes a c = true.
Proof.
  rewrite !includes_spec.
  intros (pre1 & post1 & ->) (pre2 & post2 & ->).
  exists (pre2 +:+ pre1), (post1 +:+ post2). by rewrite !string_app_assoc.
Qed.

Lemma includes_refl a : includes a a = true.
Proof.
  apply includes_spec. exists EmptyString, EmptyString.
  by rewrite string_app_nil_l, string_app_nil_r.
Qed.

End StringFacts.

(* ===================================================================== *)
(** * The session summary and the tabular export *)
(* ===================================================================== *)

Module ExportProperties.
Import Js JsFacts Analytics AnalyticsFacts StringFacts.

Lemma foldl_sum {A : Type} (f : A -> Z) (l : list A) (a : Z) :
  foldl (fun acc x => acc + f x) a l = a + sumZ f l.
Proof.
  revert a. induction l as [|x l IH]; intros a; simpl; [lia|].
  rewrite IH. unfold sumZ. simpl. lia.
Qed.

Lemma sumZ_app {A : Type} (f : A -> Z) (l1 l2 : list A) :
  sumZ f (l1 ++ l2) = sumZ f l1 + sumZ f l2.
Proof. unfold sumZ. induction l1 as [|x l1 IH]; simpl; lia. Qed.

Lemma sumZ_ext {A : Type} (f g : A -> Z) (l : list A) :
  (forall x, f x = g x) -> sumZ f l = sumZ g l.
Proof.
  intros H. unfold sumZ. induction l as [|x l IH]; simpl; [done|].
  by rewrite H, IH.
Qed.

Lemma sumZ_concat {A B : Type} (f : B -> Z) (g : A -> list B) (l : list A) :
  sumZ (fun x => sumZ f (g x)) l = sumZ f (concat (g <$> l)).
Proof.
  induction l as [|x l IH]; [done|].
  csimpl. rewrite sumZ_app, <- IH. reflexivity.
Qed.

Lemma sumZ_const_1 {A : Type} (l : list A) :
  sumZ (fun _ => 1) l = Z.of_nat (length l).
Proof. unfold sumZ. induction l as [|x l IH]; simpl length; simpl foldr; lia. Qed.

Lemma sumZ_plus {A : Type} (f g : A -> Z) (l : list A) :
  sumZ (fun x => f x + g x) l = sumZ f l + sumZ g l.
Proof. unfold sumZ. induction l as [|x l IH]; simpl; lia. Qed.

Lemma split_char_from_length sep s cur :
  Z.of_nat (length (split_char_from sep s cur))
  = 1 + sumZ (fun c => if decide (c = sep) then 1 else 0)
          (String.list_ascii_of_string s).
Proof.
  revert cur. induction s as [|c s IH]; intros cur; [done|].
  cbn [split_char_from String.list_ascii_of_string].
  unfold sumZ. cbn [foldr]. fold (sumZ (fun c => if decide (c = sep) then 1 else 0)
                                   (String.list_ascii_of_string s)).
  destruct (decide (c = sep)).
  - cbn [length]. rewrite Nat2Z.inj_succ, IH. lia.
  - rewrite IH. lia.
Qed.

Lemma spaceCount_sum txt :
  spaceCount txt
  = sumZ (fun c => if decide (c = " "%char) then 1 else 0)
      (String.list_ascii_of_string txt).
Proof.
  induction txt as [|c txt IH]; [done|].
  cbn [spaceCount String.list_ascii_of_string]. unfold sumZ. cbn [foldr].
  by rewrite IH.
Qed.

(** The summary counts a segment as one word plus one per space. *)
Lemma spaceSplitLength_spaces txt : spaceSplitLength txt = 1 + spaceCount txt.
Proof.
  unfold spaceSplitLength, split_char.
  by rewrite split_char_from_length, spaceCount_sum.
Qed.

(** The word total of the summary is the number of segments held by the
    service plus the number of space characters in their texts: every
    segment counts for at least one word, an empty one too, and only
    U+0020 separates words. *)
Theorem summary_totalWords_counts_spaces (now : Z) (s : AnalyticsService) :
  totalWords (getSessionSummary now s)
  = Z.of_nat (length (allSegments s))
    + sumZ (fun seg => spaceCount (text seg)) (allSegments s).
Proof.
  unfold getSessionSummary. cbn [totalWords].
  rewrite (foldl_sum (fun p => foldl (fun wordSum seg =>
                                        wordSum + spaceSplitLength (text seg))
                                 0 (transcript p))).
  rewrite Z.add_0_l.
  rewrite (sumZ_ext _ (fun p => sumZ (fun seg => 1 + spaceCount (text seg))
                                  (transcript p))).
  - rewrite (sumZ_concat (fun seg => 1 + spaceCount (text seg)) transcript).
    fold (allSegments s).
    by rewrite sumZ_plus, sumZ_const_1.
  - intros p. rewrite foldl_sum, Z.add_0_l. apply sumZ_ext.
    intros seg. apply spaceSplitLength_spaces.
Qed.

Lemma bumpSentiment_counts acc p :
  dist_positive (bumpSentiment acc p) + dist_neutral (bumpSentiment acc p)
  + dist_negative (bumpSentiment acc p)
  = dist_positive acc + dist_neutral acc + dist_negative acc + 1
  /\ dist_positive acc <= dist_positive (bumpSentiment acc p)
  /\ dist_neutral acc <= dist_neutral (bumpSentiment acc p)
  /\ dist_negative acc <= dist_negative (bumpSentiment acc p).
Proof. unfold bumpSentiment. destruct (overall (sentiment p)); simpl; lia. Qed.

Lemma foldl_bumpSentiment acc ps :
  let d := foldl bumpSentiment acc ps in
  dist_positive d + dist_neutral d + dist_negative d
  = dist_positive acc + dist_neutral acc + dist_negative acc
    + Z.of_nat (length ps)
  /\ dist_positive acc <= dist_positive d
  /\ dist_neutral acc <= dist_neutral d
  /\ dist_negative acc <= dist_negative d.
Proof.
  cbv zeta. revert acc. induction ps as [|p ps IH]; intros acc.
  - simpl. lia.
  - cbn [foldl length]. specialize (IH (bumpSentiment acc p)).
    pose proof (bumpSentiment_counts acc p). lia.
Qed.

(** The sentiment distribution of the summary counts every participant
    once: its three counts are non-negative and add up to
    [totalParticipants]. *)
Theorem summary_distribution_counts_everyone (now : Z) (s : AnalyticsService) :
  let sm := getSessionSummary now s in
  dist_positive (sentimentDistribution sm)
  + dist_neutral (sentimentDistribution sm)
  + dist_negative (sentimentDistribution sm)
  = totalParticipants sm
  /\ totalParticipants sm = Z.of_nat (length (participants s))
  /\ 0 <= dist_positive (sentimentDistribution sm)
  /\ 0 <= dist_neutral (sentimentDistribution sm)
  /\ 0 <= dist_negative (sentimentDistribution sm).
Proof.
  cbv zeta. unfold getSessionSummary.
  cbn [sentimentDistribution totalParticipants].
  pose proof (foldl_bumpSentiment
                {| dist_positive := 0; dist_neutral := 0; dist_negative := 0 |}
                (getAllParticipants s)) as H.
  cbv zeta in H. simpl in H.
  unfold getAllParticipants, Map_values in *. rewrite length_fmap in *.
  lia.
Qed.

(** The summary of a session ended at a non-zero time no longer follows
    the clock: whenever it is computed, its duration is the end time
    minus the start time, and the whole summary is the same. *)
Theorem summary_of_ended_session_is_fixed
    (endT t1 t2 : Z) (s : AnalyticsService) (sess : MeetingSession) :
  currentSession s = Some sess ->
  endT <> 0 ->
  let s' := fst (endSession endT s) in
  totalDuration (getSessionSummary t1 s') = endT - session_startTime sess
  /\ getSessionSummary t1 s' = getSessionSummary t2 s'.
Proof.
  intros Hsess Hne. cbv zeta. unfold endSession. rewrite Hsess.
  unfold getSessionSummary. simpl.
  unfold truthy_number. rewrite (proj2 (Z.eqb_neq endT 0) Hne). simpl.
  split; reflexivity.
Qed.

(** The session of the revision scenario, ended at time 100. *)
Lemma summary_of_ended_session_is_fixed_witness :
  totalDuration
    (getSessionSummary 150
       (fst (endSession 100
               (addTranscriptSegment 7 segA
                  (startSession 5 "session_5" "https://meet.google.com/abc" new)))))
  = 100 - 5.
Proof.
  refine (proj1 (summary_of_ended_session_is_fixed 100 150 0
                   (addTranscriptSegment 7 segA
                      (startSession 5 "session_5" "https://meet.google.com/abc" new))
                   _ eq_refl _)).
  lia.
Defined.

(** The table is rectangular: every participant gives one row, and every
    row has as many cells as the header - seven, or nine with the
    sentiment columns. *)
Theorem csv_rows_match_header `{JsRuntime}
    (data : ExportData) (options : AnalyticsExportOptions) :
  length (csvRows data options) = length (ed_participants data)
  /\ Forall (fun row => length row = length (csvHeaders options))
       (csvRows data options)
  /\ length (csvHeaders options)
     = (if includeSentiment options then 9 else 7)%nat.
Proof.
  unfold csvRows. split; [apply length_fmap|]. split.
  - apply Forall_fmap, Forall_forall. intros p _. simpl.
    unfold csvRow, csvHeaders. rewrite length_fmap.
    destruct (includeSentiment options); reflexivity.
  - unfold csvHeaders. rewrite length_fmap.
    by destruct (includeSentiment options).
Qed.

Lemma parseCells_doubleQuotes txt cur rest :
  parseCells InCell cur (doubleQuotes txt +:+ String quote rest)
  = parseCells AfterQuote (cur +:+ txt) rest.
Proof.
  revert cur. induction txt as [|c txt IH]; intros cur.
  - rewrite string_app_nil_r. simpl doubleQuotes. rewrite string_app_nil_l.
    cbn [parseCells]. by rewrite decide_True.
  - cbn [doubleQuotes]. destruct (decide (c = quote)) as [->|Hne].
    + rewrite !string_app_cons. cbn [parseCells]. rewrite !decide_True by done.
      rewrite IH. by rewrite string_app_assoc.
    + rewrite string_app_cons. cbn [parseCells]. rewrite decide_False by done.
      rewrite IH. by rewrite string_app_assoc.
Qed.

Lemma parseCells_escaped cell rest :
  parseCells AtCellStart EmptyString (escapeForCSV cell +:+ rest)
  = parseCells AfterQuote (formatCell cell) rest.
Proof.
  unfold escapeForCSV. rewrite string_app_cons. cbn [parseCells].
  rewrite decide_True by done. rewrite string_app_assoc, string_app_cons, string_app_nil_l.
  by rewrite parseCells_doubleQuotes, string_app_nil_l.
Qed.

(** Reading a written line gives back the text of its cells. *)
Lemma parseCells_line (row : list Cell) :
  row <> [] ->
  parseCells AtCellStart EmptyString (join "," (escapeForCSV <$> row))
  = Some (formatCell <$> row).
Proof.
  induction row as [|cell row IH]; [done|]. intros _.
  destruct row as [|cell2 row].
  - cbn [fmap list_fmap join].
    rewrite <- (string_app_nil_r (escapeForCSV cell)), parseCells_escaped. done.
  - change (join "," (escapeForCSV <$> cell :: cell2 :: row))
      with (escapeForCSV cell +:+ "," +:+ join "," (escapeForCSV <$> cell2 :: row)).
    rewrite parseCells_escaped.
    change ("," +:+ ?r) with (String ","%char r).
    cbn [parseCells]. rewrite decide_False by done. rewrite decide_True by done.
    by rewrite IH.
Qed.

(** A line of the table determines the text of its cells: quotes, commas
    and line breaks inside a cell never make two different rows look
    alike. *)
Theorem csv_line_determines_cells (row1 row2 : list Cell) :
  row1 <> [] -> row2 <> [] ->
  join "," (escapeForCSV <$> row1) = join "," (escapeForCSV <$> row2) ->
  formatCell <$> row1 = formatCell <$> row2.
Proof.
  intros H1 H2 Heq.
  pose proof (parseCells_line row1 H1) as P1.
  pose proof (parseCells_line row2 H2) as P2.
  rewrite Heq in P1. congruence.
Qed.

(** A name with a comma and a quote in it. *)
Lemma csv_line_determines_cells_witness :
  [CellString ("a," +:+ String quote "b"); CellNumber 2] <> []
  /\ (join "," (escapeForCSV <$> [CellString ("a," +:+ String quote "b"); CellNumber 2])
      = join "," (escapeForCSV <$> [CellString ("a," +:+ String quote "b"); CellNumber 2]) ->
      formatCell <$> [CellString ("a," +:+ String quote "b"); CellNumber 2]
      = formatCell <$> [CellString ("a," +:+ String quote "b"); CellNumber 2]).
Proof.
  split; [discriminate|].
  apply csv_line_determines_cells; discriminate.
Defined.

(** The word count of a row of the table is the policy's count summed
    over the participant's segments when the transcript is included in the
    export, and 0 when it is not. *)
Theorem csv_words_follow_policy
    (options : AnalyticsExportOptions) (p : ParticipantData) :
  wordsSpoken (exportParticipant options p)
  = if includeTranscript options
    then sumZ (fun seg => wordCountPolicy (text seg)) (transcript p)
    else 0.
Proof.
  unfold wordsSpoken, exportParticipant. cbn [ep_transcript].
  destruct (includeTranscript options); [|done].
  rewrite foldl_sum, Z.add_0_l.
  induction (transcript p) as [|seg l IH]; [done|].
  unfold sumZ in *. csimpl. rewrite IH.
  by rewrite AnalyticsProperties.countWords_policy.
Qed.

End ExportProperties.

(* ===================================================================== *)
(** * The reconciler's footprint and the bot trigger *)
(* ===================================================================== *)

Module PageProperties.
Import Js StringFacts Page ReconcilerProperties.

Lemma filter_insert_outside {A : Type} (P : A -> Prop)
    `{forall x, Decision (P x)} (l : list A) (i : nat) (x y : A) :
  l !! i = Some y -> ~ P x -> ~ P y ->
  filter P (<[i := x]> l) = filter P l.
Proof.
  revert i. induction l as [|a l IH]; intros [|i] Hy Hx Hy'; try done.
  - simpl in Hy. injection Hy as ->. simpl.
    by rewrite !filter_cons_False.
  - simpl in Hy. simpl. rewrite !filter_cons. by rewrite (IH i).
Qed.

(** A new segment touches one slot of its own speaker only.  The
    segments of every other speaker stay as they are and in their order;
    the transcript grows by one segment or not at all; the new segment is
    in the result; and a segment that disappears was in the slot of the
    new one. *)
Theorem reconcile_touches_one_slot
    (prev : list TranscriptSegment) (segment : TranscriptSegment) :
  (forall k, k <> speakerIndex segment ->
     segmentsOf k (reconcile prev segment) = segmentsOf k prev)
  /\ (length prev <= length (reconcile prev segment) <= length prev + 1)%nat
  /\ segment ∈ reconcile prev segment
  /\ (forall x, x ∈ prev -> x ∈ reconcile prev segment \/ inSlot segment x).
Proof.
  unfold reconcile.
  destruct (findIndex (sameSlot segment) prev) as [i|] eqn:Hfind.
  - apply findIndex_Some in Hfind as [(y & Hy & Hslot) _].
    apply sameSlot_inSlot in Hslot. pose proof Hslot as [Hspk _].
    split; [|split; [|split]].
    + intros k Hk. unfold segmentsOf.
      apply (filter_insert_outside _ _ _ _ y); [done|congruence..].
    + rewrite length_insert. lia.
    + apply list_elem_of_lookup. exists i.
      apply list_lookup_insert_eq. by eapply lookup_lt_Some.
    + intros x Hx. apply list_elem_of_lookup in Hx as [j Hj].
      destruct (decide (i = j)) as [->|Hne].
      * right. congruence.
      * left. apply list_elem_of_lookup. exists j.
        by rewrite list_lookup_insert_ne.
  - split; [|split; [|split]].
    + intros k Hk. unfold segmentsOf. rewrite filter_app.
      rewrite filter_cons_False by congruence. by rewrite app_nil_r.
    + rewrite length_app. simpl. lia.
    + apply elem_of_app. right. apply list_elem_of_here.
    + intros x Hx. left. apply elem_of_app. by left.
Qed.

(** The bot answers exactly when the lower-cased text contains [bot],
    [assistant] or [ai] somewhere, inside a word or not: the two longer
    phrases of the trigger list add nothing. *)
Theorem bot_trigger_is_a_substring_test (segment : TranscriptSegment) :
  checkForBotMention segment
  = includes "bot" (toLowerCase (text segment))
    || includes "assistant" (toLowerCase (text segment))
    || includes "ai" (toLowerCase (text segment)).
Proof.
  unfold checkForBotMention, botTriggers. cbn [existsb].
  set (t := toLowerCase (text segment)).
  assert (H1 : includes "hey bot" t = true -> includes "bot" t = true)
    by (apply includes_trans; reflexivity).
  assert (H2 : includes "bot please" t = true -> includes "bot" t = true)
    by (apply includes_trans; reflexivity).
  destruct (includes "bot" t); [done|].
  destruct (includes "hey bot" t); [by discriminate H1|].
  destruct (includes "bot please" t); [by discriminate H2|].
  by destruct (includes "assistant" t), (includes "ai" t).
Qed.

End PageProperties.

(* ===================================================================== *)
(** * The connection over any sequence of events *)
(* ===================================================================== *)

Module ConnectionProperties.
Import Transcription.

Lemma run_cons s e es :
  run s (e :: es)
  = ((run (step s e).1 es).1, (step s e).2 :: (run (step s e).1 es).2).
Proof. simpl. destruct (step s e), (run _ es). reflexivity. Qed.

Lemma step_attempts s e :
  e <> OnOpen -> reconnectAttempts s <= reconnectAttempts (step s e).1.
Proof.
  intros He. destruct e as [[|m]| | |code|[|m]|]; simpl; try lia; [done|].
  unfold disconnect. destruct (ws s); simpl; lia.
Qed.

(** Once the retry budget is used up, no reconnect is scheduled any more
    until a connection opens: whatever happens - closes with any code,
    errors, timers, calls of [connect] and [disconnect] - no timer is set
    as long as no [open] event arrives. *)
Theorem no_reconnect_after_exhaustion
    (s : TranscriptionService) (es : list Event) :
  maxReconnectAttempts <= reconnectAttempts s ->
  OnOpen ∉ es ->
  Forall (fun out => Forall (fun e => isSetTimeout e = false) out)
    (run s es).2.
Proof.
  revert s. induction es as [|e es IH]; intros s Hmax Hno.
  - constructor.
  - apply not_elem_of_cons in Hno as [He Hno].
    rewrite run_cons. cbn [snd]. apply Forall_cons. split.
    + destruct e as [[|m]| | |code|[|m]|]; simpl; repeat constructor.
      * unfold onclose. simpl.
        rewrite (proj2 (Z.ltb_ge _ _) Hmax), andb_false_r. constructor.
      * unfold disconnect. destruct (ws s); simpl; repeat constructor.
    + apply IH; [|done].
      pose proof (step_attempts s e ltac:(congruence)). lia.
Qed.

(** The budget is used up, and the server keeps closing and erroring. *)
Lemma no_reconnect_after_exhaustion_witness :
  maxReconnectAttempts
  <= reconnectAttempts (failTimes 3 1006 (onopen new).1)
  /\ (OnOpen ∉ [OnClose 1006; OnError; TimerFired SocketCreated; OnClose 1011])
  /\ Forall (fun out => Forall (fun e => isSetTimeout e = false) out)
       (run (failTimes 3 1006 (onopen new).1)
          [OnClose 1006; OnError; TimerFired SocketCreated; OnClose 1011]).2.
Proof.
  assert (H1 : maxReconnectAttempts
               <= reconnectAttempts (failTimes 3 1006 (onopen new).1))
    by (vm_compute; discriminate).
  assert (H2 : OnOpen ∉ [OnClose 1006; OnError; TimerFired SocketCreated;
                         OnClose 1011]).
  { intros H. repeat (apply elem_of_cons in H as [H|H]; [discriminate H|]).
    by apply elem_of_nil in H. }
  split; [exact H1|]. split; [exact H2|].
  exact (no_reconnect_after_exhaustion _ _ H1 H2).
Defined.

Lemma step_isConnected s e :
  e <> OnOpen -> isConnected s = false -> isConnected (step s e).1 = false.
Proof.
  intros He Hs. destruct e as [[|m]| | |code|[|m]|]; simpl; try done.
  unfold disconnect. by destruct (ws s).
Qed.

Lemma run_isConnected s es :
  OnOpen ∉ es -> isConnected s = false -> isConnected (run s es).1 = false.
Proof.
  revert s. induction es as [|e es IH]; intros s Hno Hs; [done|].
  apply not_elem_of_cons in Hno as [He Hno]. rewrite run_cons. cbn [fst].
  apply IH; [done|]. apply step_isConnected; [congruence|done].
Qed.

Lemma step_ws s e :
  e <> Connect SocketCreated -> e <> TimerFired SocketCreated ->
  ws s = false -> ws (step s e).1 = false.
Proof.
  intros He1 He2 Hs. destruct e as [[|m]| | |code|[|m]|]; simpl; try done.
  unfold disconnect. by rewrite Hs.
Qed.

Lemma run_ws s es :
  Connect SocketCreated ∉ es -> TimerFired SocketCreated ∉ es ->
  ws s = false -> ws (run s es).1 = false.
Proof.
  revert s. induction es as [|e es IH]; intros s Hc Ht Hs; [done|].
  apply not_elem_of_cons in Hc as [He1 Hc].
  apply not_elem_of_cons in Ht as [He2 Ht]. rewrite run_cons. cbn [fst].
  apply IH; [done..|]. apply step_ws; [congruence..|done].
Qed.

(** Audio is dropped while the connection is down.  After a close or an
    error of the socket, no chunk is sent until an [open] event arrives;
    after [disconnect()], none is sent until the service holds a socket
    again (by a call of [connect] or by a reconnect timer that creates
    one; a construction that throws does not count) - whatever state the
    socket itself reports.  And [sendAudio] sends exactly when
    [isWebSocketConnected] answers yes. *)
Theorem audio_is_dropped_while_disconnected
    (s : TranscriptionService) (es : list Event) (code : Z)
    (readyStateOpen : bool) :
  (OnOpen ∉ es ->
     sendAudio readyStateOpen (run (onclose code s).1 es).1 = false
     /\ sendAudio readyStateOpen (run (onerror s).1 es).1 = false)
  /\ (Connect SocketCreated ∉ es -> TimerFired SocketCreated ∉ es ->
        sendAudio readyStateOpen (run (disconnect s).1 es).1 = false)
  /\ sendAudio readyStateOpen s = isWebSocketConnected readyStateOpen s.
Proof.
  split; [|split].
  - intros Hno. unfold sendAudio.
    rewrite !run_isConnected by done. by rewrite !andb_false_r.
  - intros Hc Ht. unfold sendAudio. rewrite run_ws; [done..|].
    unfold disconnect. by destruct (ws s) eqn:Hws.
  - unfold sendAudio, isWebSocketConnected.
    by destruct (ws s), (isConnected s), readyStateOpen.
Qed.

(** A chunk arriving between a failed connection and its reconnect. *)
Lemma audio_is_dropped_while_disconnected_witness :
  (OnOpen ∉ [TimerFired SocketCreated; OnError])
  /\ sendAudio true
       (run (onclose 1006 (run new [Connect SocketCreated; OnOpen]).1).1
          [TimerFired SocketCreated; OnError]).1 = false.
Proof.
  assert (H : OnOpen ∉ [TimerFired SocketCreated; OnError]).
  { intros H. repeat (apply elem_of_cons in H as [H|H]; [discriminate H|]).
    by apply elem_of_nil in H. }
  split; [exact H|].
  exact (proj1 (proj1 (audio_is_dropped_while_disconnected
                         (run new [Connect SocketCreated; OnOpen]).1
                         [TimerFired SocketCreated; OnError]
                         1006 true) H)).
Defined.

Lemma runClient_cons c e es :
  runClient c (e :: es)
  = ((runClient (deliver c e).1 es).1,
     (deliver c e).2 :: (runClient (deliver c e).1 es).2).
Proof. simpl. destruct (deliver c e), (runClient _ es). reflexivity. Qed.

Lemma runClient_app c es1 es2 :
  (runClient c (es1 ++ es2)).1 = (runClient (runClient c es1).1 es2).1.
Proof.
  revert c. induction es1 as [|e es1 IH]; intros c; [done|].
  rewrite <- app_comm_cons, !runClient_cons. cbn [fst]. apply IH.
Qed.

Lemma deliver_Disconnect c :
  (deliver c Disconnect).1
  = {| service := (disconnect (service c)).1;
       pendingTimers := pendingTimers c |}.
Proof.
  unfold deliver, step, disconnect.
  destruct (ws (service c)); simpl; rewrite app_nil_r; [done|].
  by destruct c.
Qed.

(** Events other than the firing of a timer take no timer out of the
    pool. *)
Lemma deliver_keeps_timers c e :
  (forall creation, e <> TimerFired creation) ->
  pendingTimers c `prefix_of` pendingTimers (deliver c e).1.
Proof.
  intros He. unfold deliver.
  destruct e as [cr| | |code|cr|]; try (by exfalso; eapply He);
    destruct (step (service c) _) as [s' out]; simpl; by eexists.
Qed.

Lemma runClient_keeps_timers c es :
  (forall creation, TimerFired creation ∉ es) ->
  pendingTimers c `prefix_of` pendingTimers (runClient c es).1.
Proof.
  revert c. induction es as [|e es IH]; intros c Hno; [done|].
  rewrite runClient_cons. cbn [fst]. etrans.
  - apply (deliver_keeps_timers c e). intros creation ->.
    apply (Hno creation), list_elem_of_here.
  - apply IH. intros creation Hin.
    apply (Hno creation). by apply list_elem_of_further.
Qed.

(** [disconnect()] does not cancel a reconnect that is already scheduled.
    A close with a code other than 1000 below the retry limit adds its
    timer to the pending ones.  Whatever happens next short of a timer
    firing, and when the client then calls [disconnect()], every timer
    that was pending is still pending, while the service holds no socket
    any more.  So the timer can still fire, and when it does, [connect]
    opens a new socket, which the service holds again, and the attempt
    counter goes up by one. *)
Theorem disconnect_keeps_scheduled_reconnect
    (c : Client) (code : Z) (es : list Event) :
  code <> 1000 ->
  reconnectAttempts (service c) < maxReconnectAttempts ->
  (forall creation, TimerFired creation ∉ es) ->
  let c1 := (deliver c (OnClose code)).1 in
  let c2 := (runClient c1 (es ++ [Disconnect])).1 in
  pendingTimers c1
  = pendingTimers c ++ [2000 * reconnectAttempts (service c)]
  /\ pendingTimers c1 `prefix_of` pendingTimers c2
  /\ ws (service c2) = false
  /\ exists c3,
      deliver c2 (TimerFired SocketCreated) = (c3, [NewWebSocket])
      /\ ws (service c3) = true
      /\ reconnectAttempts (service c3) = reconnectAttempts (service c2) + 1
      /\ length (pendingTimers c3) = pred (length (pendingTimers c2)).
Proof.
  intros Hcode Hlt Hno c1 c2.
  assert (H1 : pendingTimers c1
               = pendingTimers c ++ [2000 * reconnectAttempts (service c)]).
  { unfold c1, deliver, step, onclose. simpl.
    by rewrite (proj2 (Z.eqb_neq _ _) Hcode), (proj2 (Z.ltb_lt _ _) Hlt). }
  assert (H2 : pendingTimers c1 `prefix_of` pendingTimers c2).
  { unfold c2. rewrite runClient_app.
    etrans; [by apply (runClient_keeps_timers c1 es)|].
    rewrite runClient_cons. cbn [fst runClient].
    apply deliver_keeps_timers. discriminate. }
  assert (H3 : ws (service c2) = false).
  { unfold c2. rewrite runClient_app, runClient_cons. cbn [fst runClient].
    rewrite deliver_Disconnect. simpl. unfold disconnect.
    by destruct (ws (service _)) eqn:Hws. }
  split; [exact H1|]. split; [exact H2|]. split; [exact H3|].
  destruct H2 as [more Hmore]. rewrite H1 in Hmore.
  unfold deliver. destruct (pendingTimers c2) as [|d rest] eqn:Hpool.
  - by destruct (pendingTimers c).
  - eexists. split; [reflexivity|]. simpl. rewrite app_nil_r.
    repeat split; reflexivity.
Qed.

(** The first connection drops, and the page stops the analysis before
    the reconnect timer fires. *)
Lemma disconnect_keeps_scheduled_reconnect_witness :
  1006 <> 1000
  /\ reconnectAttempts
       (service (runClient {| service := new; pendingTimers := [] |}
                   [Connect SocketCreated; OnOpen]).1)
     < maxReconnectAttempts
  /\ (forall creation, TimerFired creation ∉ [OnError])
  /\ (runClient {| service := new; pendingTimers := [] |}
        [Connect SocketCreated; OnOpen; OnClose 1006; OnError; Disconnect;
         TimerFired SocketCreated]).2
     = [[NewWebSocket]; []; [SetTimeout 0];
        [CallOnError "WebSocket connection error"];
        [SocketClose 1000 "Intentional disconnect"]; [NewWebSocket]]
  /\ exists c3,
      deliver
        (runClient
           (deliver (runClient {| service := new; pendingTimers := [] |}
                       [Connect SocketCreated; OnOpen]).1 (OnClose 1006)).1
           ([OnError] ++ [Disconnect])).1
        (TimerFired SocketCreated) = (c3, [NewWebSocket])
      /\ ws (service c3) = true.
Proof.
  assert (H1 : 1006 <> 1000) by lia.
  assert (H2 : reconnectAttempts
                 (service (runClient {| service := new; pendingTimers := [] |}
                             [Connect SocketCreated; OnOpen]).1)
               < maxReconnectAttempts) by (vm_compute; reflexivity).
  assert (H3 : forall creation, TimerFired creation ∉ [OnError]).
  { intros creation H. apply elem_of_cons in H as [H|H]; [discriminate H|].
    by apply elem_of_nil in H. }
  split; [exact H1|]. split; [exact H2|]. split; [exact H3|].
  split; [reflexivity|].
  destruct (disconnect_keeps_scheduled_reconnect _ 1006 [OnError] H1 H2 H3)
    as (_ & _ & _ & c3 & Hfire & Hws & _).
  exists c3. split; [exact Hfire|exact Hws].
Defined.

End ConnectionProperties.

(* ===================================================================== *)
(** * The host shell's join handler *)
(* ===================================================================== *)

Module HostShellProperties.
Import Js StringFacts Electron.

Lemma rev_app_app s t : String.rev_app s t = String.rev s +:+ t.
Proof.
  unfold String.rev. revert t. induction s as [|c s IH]; intros t; [done|].
  simpl. rewrite (IH (String c t)), (IH (String c EmptyString)).
  by rewrite string_app_assoc.
Qed.

Lemma rev_cons c s : String.rev (String c s) = String.rev s +:+ String c EmptyString.
Proof. unfold String.rev at 1. simpl. by rewrite rev_app_app. Qed.

Lemma rev_app s t : String.rev (s +:+ t) = String.rev t +:+ String.rev s.
Proof.
  induction s as [|c s IH].
  - by rewrite string_app_nil_l, string_app_nil_r.
  - by rewrite string_app_cons, !rev_cons, IH, string_app_assoc.
Qed.

Lemma rev_involutive s : String.rev (String.rev s) = s.
Proof.
  induction s as [|c s IH]; [done|].
  by rewrite rev_cons, rev_app, IH.
Qed.

Lemma isSuffix_inv suffix s :
  isSuffix suffix s = true -> exists pre, s = pre +:+ suffix.
Proof.
  unfold isSuffix. intros H. apply prefix_inv in H as [r Hr].
  exists (String.rev r).
  by rewrite <- (rev_involutive s), Hr, rev_app, rev_involutive.
Qed.

(** No meeting of an allowed provider is refused: a URL whose host is one
    of the allowed domains, or a subdomain of one, passes the check. *)
Theorem allowed_hosts_pass_the_check
    (URL_hostname : string -> option string) (u hostname : string) :
  URL_hostname u = Some hostname ->
  onAllowList hostname = true ->
  isValidMeetingUrl URL_hostname u = true.
Proof.
  intros Hh Hallow. unfold isValidMeetingUrl. rewrite Hh.
  unfold onAllowList in Hallow.
  apply existsb_exists in Hallow as (domain & Hin & Hd).
  apply existsb_exists. exists domain. split; [done|].
  apply orb_true_iff in Hd as [Hd|Hd].
  - apply bool_decide_eq_true in Hd as ->. apply includes_refl.
  - apply isSuffix_inv in Hd as [pre ->].
    apply includes_spec. exists (pre +:+ "."), EmptyString.
    by rewrite string_app_nil_r, string_app_assoc.
Qed.

(** A Zoom meeting on a regional subdomain. *)
Lemma allowed_hosts_pass_the_check_witness :
  plainHostname "https://us02web.zoom.us/j/123" = Some "us02web.zoom.us"
  /\ onAllowList "us02web.zoom.us" = true
  /\ isValidMeetingUrl plainHostname "https://us02web.zoom.us/j/123" = true.
Proof.
  split; [reflexivity|]. split; [reflexivity|].
  exact (allowed_hosts_pass_the_check plainHostname
           "https://us02web.zoom.us/j/123" "us02web.zoom.us" eq_refl eq_refl).
Defined.



End HostShellProperties.

(* ===================================================================== *)
(** * Sentiment scores, speaker bindings, reset and export flags *)
(* ===================================================================== *)

Module ServiceProperties.
Import Js JsFacts Analytics AnalyticsFacts.

Lemma countHits_nonneg lexicon ws : 0 <= countHits lexicon ws.
Proof. unfold countHits. lia. Qed.

Lemma Qmax_0_nonneg q : (0 <= Qmax 0 q)%Q.
Proof.
  unfold Qmax. destruct (Qle_bool 0 q) eqn:H.
  - by apply Qle_bool_iff.
  - apply Qle_refl.
Qed.

Lemma ratio_bounds (p n : Z) :
  0 <= p -> 0 <= n -> 0 < p + n ->
  (-1 <= inject_Z (p - n) / inject_Z (p + n) <= 1)%Q.
Proof.
  intros Hp Hn Ht.
  assert (Hpos : (0 < inject_Z (p + n))%Q).
  { change 0%Q with (inject_Z 0). by rewrite <- Zlt_Qlt. }
  split.
  - apply Qle_shift_div_l; [done|].
    change (-1)%Q with (inject_Z (-1)).
    rewrite <- inject_Z_mult, <- Zle_Qle. lia.
  - apply Qle_shift_div_r; [done|].
    change 1%Q with (inject_Z 1).
    rewrite <- inject_Z_mult, <- Zle_Qle. lia.
Qed.

(** The sentiment of a text is well-formed: the score lies between -1 and
    1, no emotion is negative, the verdict is [positive] only for a score
    above 0.2 and [negative] only for a score below -0.2, and joy is at
    most 1. *)
Theorem analyzeSentiment_is_bounded (txt : string) :
  let r := analyzeSentiment txt in
  (-1 <= score r <= 1)%Q
  /\ (0 <= joy (emotions r))%Q /\ (0 <= sadness (emotions r))%Q
  /\ (0 <= anger (emotions r))%Q /\ (0 <= fear (emotions r))%Q
  /\ (overall r = positive -> (2 # 10 < score r)%Q)
  /\ (overall r = negative -> (score r < - (2 # 10))%Q).
Proof.
  cbv zeta. unfold analyzeSentiment.
  set (ws := split_ws (toLowerCase txt)).
  pose proof (countHits_nonneg positiveWords ws) as Hp.
  pose proof (countHits_nonneg negativeWords ws) as Hn.
  set (p := countHits positiveWords ws) in *.
  set (n := countHits negativeWords ws) in *.
  cbn [score emotions joy sadness anger fear overall].
  split; [|split; [|split; [|split; [|split; [|split]]]]].
  - destruct (0 <? p + n) eqn:Ht.
    + apply ratio_bounds; [done..|]. by apply Z.ltb_lt.
    + split; discriminate.
  - apply Qmax_0_nonneg.
  - apply Qmax_0_nonneg.
  - destruct (2 <? n); discriminate.
  - discriminate.
  - destruct (0 <? p + n); [|discriminate].
    destruct (Qle_bool _ (2 # 10)) eqn:H1; simpl.
    + by destruct (Qle_bool (- (2 # 10)) _).
    + intros _. apply Qnot_le_lt. intros Hle.
      apply Qle_bool_iff in Hle. congruence.
  - destruct (0 <? p + n); [|discriminate].
    destruct (Qle_bool _ (2 # 10)) eqn:H1; simpl; [|discriminate].
    destruct (Qle_bool (- (2 # 10)) _) eqn:H2; simpl; [discriminate|].
    intros _. apply Qnot_le_lt. intros Hle.
    apply Qle_bool_iff in Hle. congruence.
Qed.

Lemma Map_get_mapSpeaker i uid s k :
  Map_get k (participants (mapSpeakerToParticipant i uid s))
  = Map_get k (participants s).
Proof. reflexivity. Qed.

(** An explicit binding redirects what follows and rewrites nothing.
    After [mapSpeakerToParticipant] has bound a speaker index to a
    non-empty identity, the next segment of that speaker goes to the
    participant of that identity (created on the spot if unknown), and
    every other participant - the placeholder that held the speaker's
    earlier segments included - is exactly as before the binding.  A
    binding to the empty string is ignored: the speaker resolves to its
    placeholder. *)
Theorem explicit_binding_redirects_later_segments
    (now : Z) (seg : TranscriptSegment) (uid : string) (s : AnalyticsService) :
  uid <> EmptyString ->
  let s1 := mapSpeakerToParticipant (speakerIndex seg) uid s in
  let s2 := addTranscriptSegment now seg s1 in
  resolveUserId s1 (speakerIndex seg) = uid
  /\ (exists p, getParticipantStats uid s2 = Some p
                /\ last (transcript p) = Some seg)
  /\ (forall k, k <> uid -> getParticipantStats k s2 = getParticipantStats k s)
  /\ resolveUserId (mapSpeakerToParticipant (speakerIndex seg) EmptyString s)
       (speakerIndex seg)
     = placeholder (speakerIndex seg).
Proof.
  intros Hne s1 s2.
  assert (Hres : resolveUserId s1 (speakerIndex seg) = uid).
  { unfold resolveUserId, s1, mapSpeakerToParticipant. simpl.
    rewrite lookup_insert_eq. by destruct uid. }
  destruct (addTranscriptSegment_writes now seg s1) as [Hps _].
  rewrite Hres in Hps. fold s2 in Hps. unfold getParticipantStats.
  split; [done|]. split; [|split].
  - exists (pushSegment seg (attributed now seg s1)).
    rewrite Hps, Map_get_set_eq. split; [done|]. simpl. by rewrite last_snoc.
  - intros k Hk. rewrite Hps. rewrite Map_get_set_ne by done. reflexivity.
  - unfold resolveUserId, mapSpeakerToParticipant. simpl.
    by rewrite lookup_insert_eq.
Qed.

(** Speaker 0 spoke as a placeholder, then is bound to alice. *)
Lemma explicit_binding_redirects_later_segments_witness :
  "alice" <> EmptyString
  /\ (exists p,
        getParticipantStats "alice"
          (addTranscriptSegment 20 segA'
             (mapSpeakerToParticipant 0 "alice"
                (addTranscriptSegment 10 segA new))) = Some p
        /\ last (transcript p) = Some segA')
  /\ getParticipantStats "unknown_0"
       (addTranscriptSegment 20 segA'
          (mapSpeakerToParticipant 0 "alice" (addTranscriptSegment 10 segA new)))
     = getParticipantStats "unknown_0" (addTranscriptSegment 10 segA new).
Proof.
  assert (H : "alice" <> EmptyString) by discriminate.
  destruct (explicit_binding_redirects_later_segments 20 segA' "alice"
              (addTranscriptSegment 10 segA new) H) as (_ & H2 & H3 & _).
  split; [exact H|]. split; [exact H2|].
  apply H3. discriminate.
Defined.

Lemma performAll_app calls1 calls2 s :
  performAll (calls1 ++ calls2) s = performAll calls2 (performAll calls1 s).
Proof.
  revert s. induction calls1 as [|[now c] calls1 IH]; intros s; [done|].
  simpl. apply IH.
Qed.

(** [reset] forgets everything: whatever was done before it, on whatever
    service, what follows behaves as on a new service. *)
Theorem reset_forgets_the_history
    (before after : list (Z * Call)) (now : Z) (s : AnalyticsService) :
  performAll (before ++ (now, DoReset) :: after) s = performAll after new.
Proof. by rewrite performAll_app. Qed.

(** The export honours its flags.  It lists the participants of the
    service in their order; it carries a sentiment exactly when
    [includeSentiment] is set, a transcript - with as many segments as the
    participant has - exactly when [includeTranscript] is set, and no word
    timing in any segment unless [includeWordTiming] is set. *)
Theorem export_honours_flags
    (now : Z) (options : AnalyticsExportOptions) (s : AnalyticsService) :
  let data := prepareExportData now options s in
  ep_userId <$> ed_participants data = userId <$> getAllParticipants s
  /\ Forall2 (fun p e =>
                ep_sentiment e
                = (if includeSentiment options then Some (sentiment p) else None)
                /\ (length <$> ep_transcript e)
                   = (if includeTranscript options
                      then Some (length (transcript p)) else None)
                /\ (includeWordTiming options = false ->
                    forall segs, ep_transcript e = Some segs ->
                                 Forall (fun x => ex_words x = None) segs))
       (getAllParticipants s) (ed_participants data).
Proof.
  cbv zeta. unfold prepareExportData. cbn [ed_participants].
  split.
  - rewrite <- list_fmap_compose. by apply list_fmap_ext.
  - apply Forall2_fmap_r, Forall_Forall2_diag, Forall_forall.
    intros p _. unfold exportParticipant. cbn [ep_sentiment ep_transcript].
    split; [done|]. split.
    + destruct (includeTranscript options); [|done]. simpl.
      by rewrite length_fmap.
    + intros Hw segs Hsegs.
      destruct (includeTranscript options); [|done].
      injection Hsegs as <-. apply Forall_fmap, Forall_forall.
      intros seg _. simpl. by rewrite Hw.
Qed.

End ServiceProperties.
